(** * kazoo.protocol.serialization: the ZooKeeper wire codec

    A shallow embedding of [kazoo/protocol/serialization.py]: the compiled
    [struct] layouts, the length-prefixed string and buffer helpers, the ACL
    entry reader and the request/response tuples built on them, followed by
    the properties of the codec.

    Modelling conventions
    - a byte string ([str] of Python 2, [bytes]/[bytearray]) is a [list byte];
    - a text value is the list of its Unicode code points, [None] of Python is
      the [None] of [option];
    - a Python integer is a [Z]; buffer offsets are [Z] as well, with the
      negative-offset conventions of [unpack_from] and of slicing;
    - a Python exception is the [Raise] branch of [result]. *)

From Stdlib Require Import String Ascii.
From Stdlib Require Import ZArith List Bool Lia.
From Stdlib Require Import Init.Byte Strings.Byte.
Import ListNotations.

Local Open Scope Z_scope.

(* ------------------------------------------------------------------ *)
(** ** Exceptions and results *)

Inductive exn : Type :=
| StructError          (* struct.error *)
| AttributeError (name : string)
| UnicodeEncodeError
| UnicodeDecodeError
| TypeError.

Inductive result (A : Type) : Type :=
| Ok (a : A)
| Raise (e : exn).

Arguments Ok {A} a.
Arguments Raise {A} e.

Definition bind {A B : Type} (r : result A) (k : A -> result B) : result B :=
  match r with
  | Ok a => k a
  | Raise e => Raise e
  end.

Declare Scope py_scope.
Delimit Scope py_scope with py.
Notation "x <- r ;; k" := (bind r (fun x => k))
  (at level 61, r at next level, right associativity) : py_scope.
Notation "' pat <- r ;; k" := (bind r (fun x => match x with pat => k end))
  (at level 61, pat pattern, r at next level, right associativity) : py_scope.
Local Open Scope py_scope.

(* ------------------------------------------------------------------ *)
(** ** Bytes, lengths and slices *)

Definition len {A : Type} (l : list A) : Z := Z.of_nat (length l).

Definition Z_of_byte (b : byte) : Z := Z.of_N (Byte.to_N b).

(** The byte holding the low eight bits of [z]. *)
Definition byte_of_Z (z : Z) : byte :=
  match Byte.of_N (Z.to_N (Z.land z 255)) with
  | Some b => b
  | None => x00
  end.

(** Python's normalisation of one slice bound against a sequence of
    length [n]: a negative bound counts from the end, and every bound is
    clamped to [0..n]. *)
Definition slice_bound (n i : Z) : Z :=
  if i <? 0 then Z.max (i + n) 0 else Z.min i n.

(** [l[i:j]] *)
Definition py_slice {A : Type} (l : list A) (i j : Z) : list A :=
  let n := len l in
  let lo := slice_bound n i in
  let hi := slice_bound n j in
  firstn (Z.to_nat (hi - lo)) (skipn (Z.to_nat lo) l).

(* ------------------------------------------------------------------ *)
(** ** The [struct] module, network byte order

    Only the two format characters the module uses are modelled:
    ['i'] (4-byte signed) and ['q'] (8-byte signed); the leading ['!']
    selects big-endian layout without padding. *)

Inductive fmt_code : Type := Fi | Fq.

Definition code_size (c : fmt_code) : nat :=
  match c with Fi => 4%nat | Fq => 8%nat end.

Fixpoint parse_codes (s : string) : list fmt_code :=
  match s with
  | EmptyString => []
  | String "i"%char s' => Fi :: parse_codes s'
  | String "q"%char s' => Fq :: parse_codes s'
  | String _ s' => parse_codes s'
  end.

(** [struct.Struct(fmt)] *)
Definition Struct (fmt : string) : list fmt_code := parse_codes fmt.

(** [Struct.size] *)
Definition size (st : list fmt_code) : Z :=
  fold_right (fun c acc => Z.of_nat (code_size c) + acc) 0 st.

(** The [n] low-order bytes of [v], most significant first. *)
Fixpoint be_bytes (n : nat) (v : Z) : list byte :=
  match n with
  | O => []
  | S k => byte_of_Z (Z.shiftr v (8 * Z.of_nat k)) :: be_bytes k v
  end.

(** The unsigned value of a big-endian byte string. *)
Definition be_value (bs : list byte) : Z :=
  fold_left (fun acc b => acc * 256 + Z_of_byte b) bs 0.

(** Two's complement reading of an unsigned [n]-byte value. *)
Definition to_signed (n : nat) (u : Z) : Z :=
  if u <? 2 ^ (8 * Z.of_nat n - 1) then u else u - 2 ^ (8 * Z.of_nat n).

Definition in_range (c : fmt_code) (v : Z) : bool :=
  (- 2 ^ (8 * Z.of_nat (code_size c) - 1) <=? v) &&
  (v <? 2 ^ (8 * Z.of_nat (code_size c) - 1)).

(** [Struct.pack] on the values [vs]: one value per format character,
    each within the range of its field, else [struct.error]. *)
Fixpoint pack (st : list fmt_code) (vs : list Z) : result (list byte) :=
  match st, vs with
  | [], [] => Ok []
  | c :: st', v :: vs' =>
      if in_range c v then
        bs <- pack st' vs' ;;
        Ok (be_bytes (code_size c) v ++ bs)
      else Raise StructError
  | _, _ => Raise StructError
  end.

Fixpoint unpack_fields (st : list fmt_code) (bs : list byte) : list Z :=
  match st with
  | [] => []
  | c :: st' =>
      to_signed (code_size c) (be_value (firstn (code_size c) bs))
      :: unpack_fields st' (skipn (code_size c) bs)
  end.

(** [Struct.unpack_from(buffer, offset)]: a negative offset counts from
    the end of the buffer; the buffer must hold [size] bytes from the
    offset on, else [struct.error]. *)
Definition unpack_from (st : list fmt_code) (buffer : list byte) (offset : Z)
  : result (list Z) :=
  let n := len buffer in
  let offset := if offset <? 0 then offset + n else offset in
  if (offset <? 0) || (n - offset <? size st) then Raise StructError
  else Ok (unpack_fields st (skipn (Z.to_nat offset) buffer)).

(** Struct objects with formats compiled *)
Definition int_struct := Struct "!i".
Definition int_int_struct := Struct "!ii".
Definition int_int_long_struct := Struct "!iiq".

Definition int_long_int_long_struct := Struct "!iqiq".
Definition reply_header_struct := Struct "!iqi".
Definition stat_struct := Struct "!qqqqiiiqiiq".

(** [st.unpack_from(buffer, offset)[0]] *)
Definition unpack_first (st : list fmt_code) (buffer : list byte) (offset : Z)
  : result Z :=
  vs <- unpack_from st buffer offset ;;
  match vs with
  | v :: _ => Ok v
  | [] => Raise TypeError
  end.

(* ------------------------------------------------------------------ *)
(** ** Text and the UTF-8 codec

    [s.encode('utf-8')] and [b.decode('utf-8')] in their strict form: the
    encoder rejects surrogates and anything that is not a code point, the
    decoder rejects truncated, overlong and surrogate sequences. *)

Definition text : Type := list Z.

Definition is_surrogate (c : Z) : bool := (0xD800 <=? c) && (c <? 0xE000).

Definition utf8_encode_char (c : Z) : result (list byte) :=
  if c <? 0 then Raise UnicodeEncodeError
  else if c <? 0x80 then Ok [byte_of_Z c]
  else if c <? 0x800 then
    Ok [byte_of_Z (0xC0 + c / 64); byte_of_Z (0x80 + c mod 64)]
  else if c <? 0x10000 then
    if is_surrogate c then Raise UnicodeEncodeError
    else Ok [byte_of_Z (0xE0 + c / 4096);
             byte_of_Z (0x80 + (c / 64) mod 64);
             byte_of_Z (0x80 + c mod 64)]
  else if c <? 0x110000 then
    Ok [byte_of_Z (0xF0 + c / 262144);
        byte_of_Z (0x80 + (c / 4096) mod 64);
        byte_of_Z (0x80 + (c / 64) mod 64);
        byte_of_Z (0x80 + c mod 64)]
  else Raise UnicodeEncodeError.

Fixpoint utf8_encode (s : text) : result (list byte) :=
  match s with
  | [] => Ok []
  | c :: s' =>
      bs <- utf8_encode_char c ;;
      rest <- utf8_encode s' ;;
      Ok (bs ++ rest)
  end.

(** A continuation byte, [10xxxxxx]. *)
Definition is_cont (x : Z) : bool := (0x80 <=? x) && (x <? 0xC0).

Fixpoint utf8_decode (bs : list byte) : result text :=
  match bs with
  | [] => Ok []
  | b0 :: r0 =>
      let x0 := Z_of_byte b0 in
      if x0 <? 0x80 then
        s <- utf8_decode r0 ;; Ok (x0 :: s)
      else if x0 <? 0xC2 then Raise UnicodeDecodeError
      else if x0 <? 0xE0 then
        match r0 with
        | b1 :: r1 =>
            let x1 := Z_of_byte b1 in
            if is_cont x1 then
              s <- utf8_decode r1 ;;
              Ok ((x0 - 0xC0) * 64 + (x1 - 0x80) :: s)
            else Raise UnicodeDecodeError
        | _ => Raise UnicodeDecodeError
        end
      else if x0 <? 0xF0 then
        match r0 with
        | b1 :: b2 :: r2 =>
            let x1 := Z_of_byte b1 in
            let x2 := Z_of_byte b2 in
            let c := (x0 - 0xE0) * 4096 + (x1 - 0x80) * 64 + (x2 - 0x80) in
            if is_cont x1 && is_cont x2 && (0x800 <=? c)
               && negb (is_surrogate c) then
              s <- utf8_decode r2 ;; Ok (c :: s)
            else Raise UnicodeDecodeError
        | _ => Raise UnicodeDecodeError
        end
      else if x0 <? 0xF5 then
        match r0 with
        | b1 :: b2 :: b3 :: r3 =>
            let x1 := Z_of_byte b1 in
            let x2 := Z_of_byte b2 in
            let x3 := Z_of_byte b3 in
            let c := (x0 - 0xF0) * 262144 + (x1 - 0x80) * 4096
                     + (x2 - 0x80) * 64 + (x3 - 0x80) in
            if is_cont x1 && is_cont x2 && is_cont x3
               && (0x10000 <=? c) && (c <? 0x110000) then
              s <- utf8_decode r3 ;; Ok (c :: s)
            else Raise UnicodeDecodeError
        | _ => Raise UnicodeDecodeError
        end
      else Raise UnicodeDecodeError
  end.

(* ------------------------------------------------------------------ *)
(** ** Records consumed by the module *)

(** Modelled from the spec: [kazoo.security.Id], the identity pair of a
    scheme name and an identifier, both text; the source reads them as
    [acl.id.scheme] and [acl.id.id]. *)
Record Id : Type := mkId {
  scheme : option text;
  id : option text
}.

(** Modelled from the spec: [kazoo.security.ACL], a permission bitmask
    and one identity pair; the source reads them as [acl.perms] and
    [acl.id] (here [acl_id], the name [id] being taken by the field of
    [Id]). *)
Record ACL : Type := mkACL {
  perms : Z;
  acl_id : Id
}.

(** Modelled from the spec: [kazoo.protocol.states.ZnodeStat], the
    node-metadata tuple of eleven integer fields in the order of section 3
    of the specification; the source names the first one [czxid]. *)
Record ZnodeStat : Type := mkZnodeStat {
  czxid : Z;
  mzxid : Z;
  ctime : Z;
  mtime : Z;
  version : Z;
  cversion : Z;
  aversion : Z;
  ephemeralOwner : Z;
  dataLength : Z;
  numChildren : Z;
  pzxid : Z
}.

(** [ZnodeStat._make(iterable)]: exactly eleven values, else [TypeError]. *)
Definition ZnodeStat_make (vs : list Z) : result ZnodeStat :=
  match vs with
  | [a; b; c; d; e; f; g; h; i; j; k] =>
      Ok (mkZnodeStat a b c d e f g h i j k)
  | _ => Raise TypeError
  end.

(** The values a dynamically typed field of a request tuple may hold,
    as far as their truth value is concerned. *)
Inductive pyobj : Type :=
| PyNone
| PyBool (b : bool)
| PyInt (z : Z)
| PyText (s : text)
| PyBytes (b : list byte)
| PyList (l : list (option text))
| PyCallable (tag : nat).

(** Python's truth value testing. *)
Definition truthy (o : pyobj) : bool :=
  match o with
  | PyNone => false
  | PyBool b => b
  | PyInt z => negb (z =? 0)
  | PyText s => match s with [] => false | _ => true end
  | PyBytes b => match b with [] => false | _ => true end
  | PyList l => match l with [] => false | _ => true end
  | PyCallable _ => true
  end.

(* ------------------------------------------------------------------ *)
(** ** Length-prefixed strings and buffers, ACL entries *)

Definition read_string (buffer : list byte) (offset : Z)
  : result (option text * Z) :=
  length <- unpack_first int_struct buffer offset ;;
  let offset := offset + size int_struct in
  if length <? 0 then Ok (None, offset)
  else
    let index := offset in
    let offset := offset + length in
    s <- utf8_decode (py_slice buffer index (index + length)) ;;
    Ok (Some s, offset).

Definition read_acl (bytes : list byte) (offset : Z) : result (ACL * Z) :=
  perms <- unpack_first int_struct bytes offset ;;
  let offset := offset + size int_struct in
  '(scheme, offset) <- read_string bytes offset ;;
  '(id, offset) <- read_string bytes offset ;;
  Ok (mkACL perms (mkId scheme id), offset).

(** [not bytes] holds of [None] and of the empty text. *)
Definition write_string (bytes : option text) : result (list byte) :=
  match bytes with
  | None | Some [] => pack int_struct [-1]
  | Some s =>
      utf8_str <- utf8_encode s ;;
      n <- pack int_struct [len utf8_str] ;;
      Ok (n ++ utf8_str)
  end.

(** [not bytes] holds of [None] and of the empty byte string. *)
Definition write_buffer (bytes : option (list byte)) : result (list byte) :=
  match bytes with
  | None | Some [] => pack int_struct [-1]
  | Some b =>
      n <- pack int_struct [len b] ;;
      Ok (n ++ b)
  end.

Definition read_buffer (bytes : list byte) (offset : Z)
  : result (list byte * Z) :=
  length <- unpack_first int_struct bytes offset ;;
  let offset := offset + size int_struct in
  if length <? 0 then Ok ([], offset)
  else
    let index := offset in
    let offset := offset + length in
    Ok (py_slice bytes index (index + length), offset).

(* ------------------------------------------------------------------ *)
(** ** Request and response tuples

    One module per class of the source; [t] is the named tuple, [mk] its
    constructor, and the fields keep their names. *)

Module Connect.
Record t : Type := mk {
  protocol_version : Z;
  last_zxid_seen : Z;
  time_out : Z;
  session_id : Z;
  passwd : option (list byte);
  read_only : pyobj
}.

Definition serialize (self : t) : result (list byte) :=
  let b := [] in
  h <- pack int_long_int_long_struct
         [protocol_version self; last_zxid_seen self; time_out self;
          session_id self] ;;
  let b := b ++ h in
  p <- write_buffer (passwd self) ;;
  let b := b ++ p in
  let b := b ++ [if truthy (read_only self) then x01 else x00] in
  Ok b.

Definition deserialize (bytes : list byte) (offset : Z) : result (t * Z) :=
  vs <- unpack_from int_int_long_struct bytes offset ;;
  match vs with
  | [proto_version; timeout; session_id] =>
      let offset := offset + size int_int_long_struct in
      '(password, offset) <- read_buffer bytes offset ;;
      Ok (mk proto_version 0 timeout session_id (Some password) (PyInt 0),
          offset)
  | _ => Raise TypeError
  end.
End Connect.

(** [int_struct.pack(acl.perms) + write_string(acl.id.scheme)
     + write_string(acl.id.id)] *)
Definition acl_entry_bytes (acl : ACL) : result (list byte) :=
  p <- pack int_struct [perms acl] ;;
  s <- write_string (scheme (acl_id acl)) ;;
  i <- write_string (id (acl_id acl)) ;;
  Ok ((p ++ s) ++ i).

(** [for acl in acls: b.extend(...)], the loop shared by [Create.serialize]
    and [SetACL.serialize]. *)
Fixpoint extend_acls (b : list byte) (acls : list ACL) : result (list byte) :=
  match acls with
  | [] => Ok b
  | acl :: rest =>
      e <- acl_entry_bytes acl ;;
      extend_acls (b ++ e) rest
  end.

Module Create.
Record t : Type := mk {
  path : option text;
  data : option (list byte);
  acl : list ACL;
  flags : Z
}.

Definition serialize (self : t) : result (list byte) :=
  let b := [] in
  p <- write_string (path self) ;;
  let b := b ++ p in
  d <- write_buffer (data self) ;;
  let b := b ++ d in
  n <- pack int_struct [len (acl self)] ;;
  let b := b ++ n in
  b <- extend_acls b (acl self) ;;
  f <- pack int_struct [flags self] ;;
  let b := b ++ f in
  Ok b.

Definition deserialize (bytes : list byte) (offset : Z)
  : result (option text) :=
  r <- read_string bytes offset ;;
  Ok (fst r).
End Create.

Module Exists.
Record t : Type := mk {
  path : option text;
  watcher : pyobj
}.

Definition serialize (self : t) : result (list byte) :=
  let b := [] in
  p <- write_string (path self) ;;
  let b := b ++ p in
  let b := b ++ [if truthy (watcher self) then x01 else x00] in
  Ok b.

(** [None] stands for the [None] the source returns. *)
Definition deserialize (bytes : list byte) (offset : Z)
  : result (option ZnodeStat) :=
  vs <- unpack_from stat_struct bytes offset ;;
  stat <- ZnodeStat_make vs ;;
  Ok (if negb (czxid stat =? -1) then Some stat else None).
End Exists.

Module SetData.
Record t : Type := mk {
  path : option text;
  data : option (list byte);
  version : Z
}.

Definition serialize (self : t) : result (list byte) :=
  let b := [] in
  p <- write_string (path self) ;;
  let b := b ++ p in
  d <- write_buffer (data self) ;;
  let b := b ++ d in
  v <- pack int_struct [version self] ;;
  let b := b ++ v in
  Ok b.

Definition deserialize (bytes : list byte) (offset : Z) : result ZnodeStat :=
  vs <- unpack_from stat_struct bytes offset ;;
  ZnodeStat_make vs.
End SetData.

(** [for c in range(count): acl, offset = read_acl(bytes, offset);
     acls.append(acl)], the loop of [GetACL.deserialize]. *)
Fixpoint read_acls (count : nat) (bytes : list byte) (offset : Z)
  (acls : list ACL) : result (list ACL * Z) :=
  match count with
  | O => Ok (acls, offset)
  | S c =>
      '(acl, offset) <- read_acl bytes offset ;;
      read_acls c bytes offset (acls ++ [acl])
  end.

Module GetACL.
Record t : Type := mk {
  path : option text
}.

Definition serialize (self : t) : result (list byte) :=
  write_string (path self).

(** The two shapes of the result: the bare list [[]] of the first
    [return], and the pair [acls, stat] of the second. *)
Inductive response : Type :=
| Acls (acls : list ACL)
| AclsStat (acls : list ACL) (stat : ZnodeStat).

Definition deserialize (bytes : list byte) (offset : Z) : result response :=
  count <- unpack_first int_struct bytes offset ;;
  let offset := offset + size int_struct in
  if count =? -1 then Ok (Acls [])
  else
    '(acls, offset) <- read_acls (Z.to_nat count) bytes offset [] ;;
    vs <- unpack_from stat_struct bytes offset ;;
    stat <- ZnodeStat_make vs ;;
    Ok (AclsStat acls stat).
End GetACL.

Module SetACL.
(** [namedtuple('SetACL', 'path acls version')] *)
Record t : Type := mk {
  path : option text;
  acls : list ACL;
  version : Z
}.

Inductive attr : Type :=
| AText (s : option text)
| AAcls (l : list ACL)
| AInt (z : Z).

(** [self.name]: the three fields of the tuple and the class attribute
    [type] resolve, any other name is an [AttributeError]. *)
Definition getattr (self : t) (name : string) : result attr :=
  if String.eqb name "path" then Ok (AText (path self))
  else if String.eqb name "acls" then Ok (AAcls (acls self))
  else if String.eqb name "version" then Ok (AInt (version self))
  else if String.eqb name "type" then Ok (AInt 7)
  else Raise (AttributeError name).

Definition as_text (a : attr) : result (option text) :=
  match a with AText s => Ok s | _ => Raise TypeError end.

Definition as_acls (a : attr) : result (list ACL) :=
  match a with AAcls l => Ok l | _ => Raise TypeError end.

Definition as_int (a : attr) : result Z :=
  match a with AInt z => Ok z | _ => Raise TypeError end.

(** The source reads [self.path], [self.acl] (twice) and
    [self.version]. *)
Definition serialize (self : t) : result (list byte) :=
  let b := [] in
  a <- getattr self "path" ;;
  s <- as_text a ;;
  p <- write_string s ;;
  let b := b ++ p in
  a <- getattr self "acl" ;;
  l <- as_acls a ;;
  n <- pack int_struct [len l] ;;
  let b := b ++ n in
  a <- getattr self "acl" ;;
  l <- as_acls a ;;
  b <- extend_acls b l ;;
  a <- getattr self "version" ;;
  z <- as_int a ;;
  v <- pack int_struct [z] ;;
  let b := b ++ v in
  Ok b.

Definition deserialize (bytes : list byte) (offset : Z) : result ZnodeStat :=
  vs <- unpack_from stat_struct bytes offset ;;
  ZnodeStat_make vs.
End SetACL.

(** [for c in range(count): child, offset = read_string(bytes, offset);
     children.append(child)], the loop of [GetChildren.deserialize]. *)
Fixpoint read_children (count : nat) (bytes : list byte) (offset : Z)
  (children : list (option text)) : result (list (option text) * Z) :=
  match count with
  | O => Ok (children, offset)
  | S c =>
      '(child, offset) <- read_string bytes offset ;;
      read_children c bytes offset (children ++ [child])
  end.

Module GetChildren.
Record t : Type := mk {
  path : option text;
  children : pyobj;
  watcher : pyobj
}.

Definition serialize (self : t) : result (list byte) :=
  let b := [] in
  p <- write_string (path self) ;;
  let b := b ++ p in
  let b := b ++ [if truthy (watcher self) then x01 else x00] in
  Ok b.

Definition deserialize (bytes : list byte) (offset : Z)
  : result (list (option text)) :=
  count <- unpack_first int_struct bytes offset ;;
  let offset := offset + size int_struct in
  if count =? -1 then Ok []
  else
    '(children, offset) <- read_children (Z.to_nat count) bytes offset [] ;;
    Ok children.
End GetChildren.

Module Close.
Definition type : Z := -11.

Definition serialize : result (list byte) := Ok [].
End Close.

Module Ping.
Definition type : Z := 11.

Definition serialize : result (list byte) := Ok [].
End Ping.

Module Delete.
Record t : Type := mk {
  path : option text;
  version : Z
}.

Definition serialize (self : t) : result (list byte) :=
  let b := [] in
  p <- write_string (path self) ;;
  let b := b ++ p in
  v <- pack int_struct [version self] ;;
  let b := b ++ v in
  Ok b.

Definition deserialize (bytes : list byte) (offset : Z) : result bool :=
  Ok true.
End Delete.

Module GetData.
Record t : Type := mk {
  path : option text;
  watcher : pyobj
}.

Definition serialize (self : t) : result (list byte) :=
  let b := [] in
  p <- write_string (path self) ;;
  let b := b ++ p in
  let b := b ++ [if truthy (watcher self) then x01 else x00] in
  Ok b.

Definition deserialize (bytes : list byte) (offset : Z)
  : result (list byte * ZnodeStat) :=
  '(data, offset) <- read_buffer bytes offset ;;
  vs <- unpack_from stat_struct bytes offset ;;
  stat <- ZnodeStat_make vs ;;
  Ok (data, stat).
End GetData.

Module Sync.
Record t : Type := mk {
  path : option text
}.

Definition serialize (self : t) : result (list byte) :=
  write_string (path self).

Definition deserialize (buffer : list byte) (offset : Z)
  : result (option text) :=
  r <- read_string buffer offset ;;
  Ok (fst r).
End Sync.

Module Auth.
Record t : Type := mk {
  auth_type : Z;
  scheme : option text;
  auth : option (list byte)
}.

Definition serialize (self : t) : result (list byte) :=
  a <- pack int_struct [auth_type self] ;;
  s <- write_string (scheme self) ;;
  c <- write_buffer (auth self) ;;
  Ok ((a ++ s) ++ c).
End Auth.

Module Watch.
Record t : Type := mk {
  type : Z;
  state : Z;
  path : option text
}.

Definition deserialize (buffer : list byte) (offset : Z) : result (t * Z) :=
  vs <- unpack_from int_int_struct buffer offset ;;
  match vs with
  | [type; state] =>
      let offset := offset + size int_int_struct in
      '(path, offset) <- read_string buffer offset ;;
      Ok (mk type state path, offset)
  | _ => Raise TypeError
  end.
End Watch.

Module ReplyHeader.
Record t : Type := mk {
  xid : Z;
  zxid : Z;
  err : Z
}.

(** [cls._make(iterable)]: exactly three values, else [TypeError]. *)
Definition make (vs : list Z) : result t :=
  match vs with
  | [a; b; c] => Ok (mk a b c)
  | _ => Raise TypeError
  end.

Definition deserialize (buffer : list byte) (offset : Z) : result (t * Z) :=
  let new_offset := offset + size reply_header_struct in
  vs <- unpack_from reply_header_struct buffer offset ;;
  h <- make vs ;;
  Ok (h, new_offset).
End ReplyHeader.

(* ------------------------------------------------------------------ *)
(** ** What a decoder yields for encoder output *)

(** The text [read_string] yields for the bytes [write_string] wrote for
    [s]: the empty text is written as the absent one. *)
Definition wire_text (s : option text) : option text :=
  match s with
  | Some (c :: s') => Some (c :: s')
  | _ => None
  end.

(** The entry [read_acl] yields for the bytes written for [a]. *)
Definition wire_acl (a : ACL) : ACL :=
  mkACL (perms a)
        (mkId (wire_text (scheme (acl_id a))) (wire_text (id (acl_id a)))).

(** The bytes [read_buffer] yields for the bytes [write_buffer] wrote
    for [b]: the absent buffer is read back as the empty one. *)
Definition wire_buffer (b : option (list byte)) : list byte :=
  match b with
  | Some x => x
  | None => []
  end.

(** Neither text of the identity pair is the empty text. *)
Definition no_empty_text (a : ACL) : Prop :=
  scheme (acl_id a) <> Some [] /\ id (acl_id a) <> Some [].

(** A five-entry request used to exercise the ACL list codec. *)
Definition example_create : Create.t :=
  Create.mk (Some [47; 97]) (Some [x68; x69])
    [mkACL 31 (mkId (Some [119; 111; 114; 108; 100])
                    (Some [97; 110; 121; 111; 110; 101]));
     mkACL 1 (mkId (Some [105; 112]) (Some [49; 48; 46; 48; 46; 48; 46; 49]));
     mkACL 4 (mkId (Some [100; 105; 103; 101; 115; 116])
                   (Some [117; 58; 233; 8364; 128512]));
     mkACL 16 (mkId (Some [97; 117; 116; 104]) None);
     mkACL (-1) (mkId (Some [120]) (Some [121]))]
    3.

Definition example_create_bytes : list byte :=
  match Create.serialize example_create with
  | Ok bs => bs
  | Raise _ => []
  end.

(* ------------------------------------------------------------------ *)
(** * Properties *)

(** ** Bytes and big-endian integers *)

Lemma Z_of_byte_range (b : byte) : 0 <= Z_of_byte b < 256.
Proof.
  unfold Z_of_byte. pose proof (Byte.to_N_bounded b). lia.
Qed.

Lemma Z_of_byte_of_Z (z : Z) : Z_of_byte (byte_of_Z z) = z mod 256.
Proof.
  unfold Z_of_byte, byte_of_Z.
  change 255 with (Z.ones 8). rewrite Z.land_ones by lia.
  change (2 ^ 8) with 256.
  pose proof (Z.mod_pos_bound z 256 ltac:(lia)) as Hm.
  destruct (Byte.of_N (Z.to_N (z mod 256))) as [b|] eqn:E.
  - apply Byte.to_of_N in E. rewrite E. lia.
  - apply Byte.of_N_None_iff in E. lia.
Qed.

Lemma Z_of_byte_of_Z_small (z : Z) :
  0 <= z < 256 -> Z_of_byte (byte_of_Z z) = z.
Proof.
  intros H. rewrite Z_of_byte_of_Z. apply Z.mod_small; assumption.
Qed.

Lemma len_app {A : Type} (l1 l2 : list A) : len (l1 ++ l2) = len l1 + len l2.
Proof. unfold len. rewrite length_app. lia. Qed.

Lemma len_nonneg {A : Type} (l : list A) : 0 <= len l.
Proof. unfold len. lia. Qed.

Lemma length_be_bytes (n : nat) (v : Z) : length (be_bytes n v) = n.
Proof. induction n; simpl; congruence. Qed.

Lemma fold_be_bytes (n : nat) (v acc : Z) :
  fold_left (fun a b => a * 256 + Z_of_byte b) (be_bytes n v) acc
  = acc * 2 ^ (8 * Z.of_nat n) + v mod 2 ^ (8 * Z.of_nat n).
Proof.
  revert acc. induction n as [|k IH]; intros acc.
  - simpl. rewrite Z.mod_1_r. lia.
  - cbn [be_bytes fold_left]. rewrite IH, Z_of_byte_of_Z.
    rewrite Z.shiftr_div_pow2 by lia.
    replace (8 * Z.of_nat (S k)) with (8 * Z.of_nat k + 8) by lia.
    rewrite Z.pow_add_r by lia. change (2 ^ 8) with 256.
    set (p := 2 ^ (8 * Z.of_nat k)).
    assert (0 < p) by (apply Z.pow_pos_nonneg; lia).
    rewrite (Z.rem_mul_r v p 256) by lia. lia.
Qed.

Lemma be_value_be_bytes (n : nat) (v : Z) :
  be_value (be_bytes n v) = v mod 2 ^ (8 * Z.of_nat n).
Proof. unfold be_value. rewrite fold_be_bytes. lia. Qed.

Lemma in_range_spec (c : fmt_code) (v : Z) :
  in_range c v = true <->
  - 2 ^ (8 * Z.of_nat (code_size c) - 1) <= v
                < 2 ^ (8 * Z.of_nat (code_size c) - 1).
Proof.
  unfold in_range. rewrite andb_true_iff, Z.leb_le, Z.ltb_lt. tauto.
Qed.

Lemma to_signed_mod (c : fmt_code) (v : Z) :
  in_range c v = true ->
  to_signed (code_size c) (v mod 2 ^ (8 * Z.of_nat (code_size c))) = v.
Proof.
  intros H. apply in_range_spec in H. unfold to_signed.
  set (n := 8 * Z.of_nat (code_size c)) in *.
  assert (Hn : 0 < n) by (subst n; destruct c; simpl; lia).
  assert (Hp : 2 ^ n = 2 * 2 ^ (n - 1)).
  { replace n with (n - 1 + 1) at 1 by lia.
    rewrite Z.pow_add_r by lia. lia. }
  assert (0 < 2 ^ (n - 1)) by (apply Z.pow_pos_nonneg; lia).
  destruct (Z_lt_le_dec v 0).
  - rewrite <- (Z.mod_add v 1) by lia.
    rewrite Z.mod_small by lia.
    destruct (Z.ltb_spec (v + 1 * 2 ^ n) (2 ^ (n - 1))); lia.
  - rewrite Z.mod_small by lia.
    destruct (Z.ltb_spec v (2 ^ (n - 1))); lia.
Qed.

Lemma firstn_len_app {A : Type} (l1 l2 : list A) :
  firstn (length l1) (l1 ++ l2) = l1.
Proof.
  rewrite firstn_app, Nat.sub_diag, firstn_all. simpl. apply app_nil_r.
Qed.

Lemma skipn_len_app {A : Type} (l1 l2 : list A) :
  skipn (length l1) (l1 ++ l2) = l2.
Proof.
  rewrite skipn_app, Nat.sub_diag, skipn_all. reflexivity.
Qed.

Lemma pack_length (st : list fmt_code) :
  forall vs bs, pack st vs = Ok bs -> len bs = size st.
Proof.
  induction st as [|c st IH]; intros [|v vs] bs H; simpl in H;
    try discriminate.
  - injection H as <-. reflexivity.
  - destruct (in_range c v); [|discriminate].
    destruct (pack st vs) as [bs'|] eqn:E; simpl in H; [|discriminate].
    injection H as <-. rewrite len_app. unfold len at 1.
    rewrite length_be_bytes. simpl. rewrite (IH _ _ E). reflexivity.
Qed.

Lemma unpack_fields_pack (st : list fmt_code) :
  forall vs bs rest,
    pack st vs = Ok bs -> unpack_fields st (bs ++ rest) = vs.
Proof.
  induction st as [|c st IH]; intros [|v vs] bs rest H; simpl in H;
    try discriminate.
  - reflexivity.
  - destruct (in_range c v) eqn:R; [|discriminate].
    destruct (pack st vs) as [bs'|] eqn:E; simpl in H; [|discriminate].
    injection H as <-. cbn [unpack_fields]. rewrite <- app_assoc.
    pose proof (length_be_bytes (code_size c) v) as L.
    rewrite <- L at 2 4.
    rewrite firstn_len_app, skipn_len_app.
    rewrite be_value_be_bytes, to_signed_mod by assumption.
    f_equal. apply IH. assumption.
Qed.

Lemma length_unpack_fields (st : list fmt_code) (bs : list byte) :
  length (unpack_fields st bs) = length st.
Proof.
  revert bs. induction st; intros bs; simpl; [reflexivity|].
  f_equal. apply IHst.
Qed.

Lemma size_nonneg (st : list fmt_code) : 0 <= size st.
Proof. induction st; simpl; lia. Qed.

(** [unpack_from] at a non-negative offset with enough bytes behind it. *)
Lemma unpack_from_ok (st : list fmt_code) (buffer : list byte) (offset : Z) :
  0 <= offset -> offset + size st <= len buffer ->
  unpack_from st buffer offset
  = Ok (unpack_fields st (skipn (Z.to_nat offset) buffer)).
Proof.
  intros H0 H1. unfold unpack_from.
  destruct (Z.ltb_spec offset 0); [lia|].
  destruct (Z.ltb_spec offset 0); [lia|].
  destruct (Z.ltb_spec (len buffer - offset) (size st)); [lia|].
  reflexivity.
Qed.

Lemma skipn_len_pre {A : Type} (pre l : list A) :
  skipn (Z.to_nat (len pre)) (pre ++ l) = l.
Proof.
  unfold len. rewrite Nat2Z.id. apply skipn_len_app.
Qed.

(** Unpacking what [pack] wrote, wherever it sits in the buffer. *)
Lemma unpack_from_pack (st : list fmt_code) (vs : list Z)
  (pre bs post : list byte) :
  pack st vs = Ok bs ->
  unpack_from st (pre ++ bs ++ post) (len pre) = Ok vs.
Proof.
  intros H. pose proof (pack_length _ _ _ H) as L.
  rewrite unpack_from_ok.
  - rewrite skipn_len_pre. f_equal. apply unpack_fields_pack. assumption.
  - apply len_nonneg.
  - rewrite !len_app. pose proof (len_nonneg post). lia.
Qed.

Lemma py_slice_middle {A : Type} (pre mid post : list A) :
  py_slice (pre ++ mid ++ post) (len pre) (len pre + len mid) = mid.
Proof.
  unfold py_slice, slice_bound. rewrite !len_app.
  pose proof (len_nonneg pre). pose proof (len_nonneg mid).
  pose proof (len_nonneg post).
  destruct (Z.ltb_spec (len pre) 0); [lia|].
  destruct (Z.ltb_spec (len pre + len mid) 0); [lia|].
  rewrite !Z.min_l by lia.
  rewrite skipn_len_pre.
  replace (len pre + len mid - len pre) with (len mid) by lia.
  unfold len. rewrite Nat2Z.id. apply firstn_len_app.
Qed.

(** ** The UTF-8 codec *)

(** Decides the comparisons met while a decoder runs on encoder output. *)
Ltac dlia := Z.div_mod_to_equations; lia.

Ltac decide_tests :=
  repeat match goal with
    | |- context [Z.ltb ?a ?b] =>
        destruct (Z.ltb_spec a b); try dlia
    | |- context [Z.leb ?a ?b] =>
        destruct (Z.leb_spec a b); try dlia
    end.

Lemma Ok_inj {A : Type} (a b : A) : Ok a = Ok b -> a = b.
Proof. intros H. injection H as H. exact H. Qed.

Lemma utf8_decode_encode_char (c : Z) (bs rest : list byte) :
  utf8_encode_char c = Ok bs ->
  utf8_decode (bs ++ rest) = (s <- utf8_decode rest ;; Ok (c :: s)).
Proof.
  unfold utf8_encode_char, is_surrogate.
  destruct (Z.ltb_spec c 0); [discriminate|].
  destruct (Z.ltb_spec c 0x80).
  { intros E; apply Ok_inj in E; subst bs. cbn [app utf8_decode].
    rewrite Z_of_byte_of_Z_small by lia.
    destruct (Z.ltb_spec c 0x80); [reflexivity|lia]. }
  destruct (Z.ltb_spec c 0x800).
  { intros E; apply Ok_inj in E; subst bs. cbn [app utf8_decode].
    rewrite !Z_of_byte_of_Z_small by dlia.
    unfold is_cont. decide_tests. cbn [andb].
    replace ((192 + c / 64 - 192) * 64 + (128 + c mod 64 - 128)) with c
      by dlia.
    reflexivity. }
  destruct (Z.ltb_spec c 0x10000).
  { destruct (Z.leb_spec 0xD800 c); destruct (Z.ltb_spec c 0xE000);
      cbn [andb]; try discriminate.
    all: intros E; apply Ok_inj in E; subst bs; cbn [app utf8_decode].
    all: rewrite !Z_of_byte_of_Z_small by dlia.
    all: unfold is_cont, is_surrogate.
    all: replace ((224 + c / 4096 - 224) * 4096
                  + (128 + (c / 64) mod 64 - 128) * 64
                  + (128 + c mod 64 - 128)) with c by dlia.
    all: decide_tests; reflexivity. }
  destruct (Z.ltb_spec c 0x110000); [|discriminate].
  intros E; apply Ok_inj in E; subst bs. cbn [app utf8_decode].
  rewrite !Z_of_byte_of_Z_small by dlia.
  unfold is_cont.
  replace ((240 + c / 262144 - 240) * 262144
           + (128 + (c / 4096) mod 64 - 128) * 4096
           + (128 + (c / 64) mod 64 - 128) * 64
           + (128 + c mod 64 - 128)) with c by dlia.
  decide_tests; reflexivity.
Qed.

Lemma utf8_decode_encode (s : text) :
  forall bs, utf8_encode s = Ok bs -> utf8_decode bs = Ok s.
Proof.
  induction s as [|c s IH]; intros bs H; simpl in H.
  - injection H as <-. reflexivity.
  - destruct (utf8_encode_char c) as [b1|] eqn:E1; [|discriminate].
    destruct (utf8_encode s) as [b2|] eqn:E2; [|discriminate].
    simpl in H. injection H as <-.
    rewrite (utf8_decode_encode_char _ _ _ E1), (IH _ eq_refl).
    reflexivity.
Qed.

Lemma utf8_encode_char_nonempty (c : Z) (bs : list byte) :
  utf8_encode_char c = Ok bs -> 0 < len bs.
Proof.
  unfold utf8_encode_char.
  repeat match goal with
    | |- context [if ?b then _ else _] => destruct b
    end; intros [= <-]; unfold len; simpl; lia.
Qed.

Lemma utf8_encode_nonempty (c : Z) (s : text) (bs : list byte) :
  utf8_encode (c :: s) = Ok bs -> 0 < len bs.
Proof.
  simpl. destruct (utf8_encode_char c) as [b1|] eqn:E1; [|discriminate].
  destruct (utf8_encode s) as [b2|]; [|discriminate].
  simpl. intros [= <-]. rewrite len_app.
  pose proof (utf8_encode_char_nonempty _ _ E1). pose proof (len_nonneg b2).
  lia.
Qed.

(** ** Length-prefixed strings and buffers *)

Lemma size_int_struct : size int_struct = 4.
Proof. reflexivity. Qed.

Lemma unpack_first_pack (v : Z) (pre bs post : list byte) :
  pack int_struct [v] = Ok bs ->
  unpack_first int_struct (pre ++ bs ++ post) (len pre) = Ok v.
Proof.
  intros H. unfold unpack_first.
  rewrite (unpack_from_pack _ _ _ _ _ H). reflexivity.
Qed.

Lemma pack_int_len (v : Z) (bs : list byte) :
  pack int_struct [v] = Ok bs -> len bs = 4.
Proof. intros H. apply pack_length in H. exact H. Qed.

Lemma read_string_absent (pre bs post : list byte) :
  pack int_struct [-1] = Ok bs ->
  read_string (pre ++ bs ++ post) (len pre) = Ok (None, len pre + len bs).
Proof.
  intros H. unfold read_string.
  rewrite (unpack_first_pack _ _ _ _ H). cbn [bind].
  rewrite (pack_int_len _ _ H), size_int_struct. reflexivity.
Qed.

Lemma read_string_write_string (s : option text) (pre bs post : list byte) :
  write_string s = Ok bs ->
  read_string (pre ++ bs ++ post) (len pre)
  = Ok (wire_text s, len pre + len bs).
Proof.
  destruct s as [[|c s]|]; cbn [write_string wire_text];
    try apply read_string_absent.
  destruct (utf8_encode (c :: s)) as [u|] eqn:Eu; [|discriminate].
  cbn [bind].
  destruct (pack int_struct [len u]) as [n|] eqn:En; [|discriminate].
  cbn [bind]. intros H. apply Ok_inj in H. subst bs.
  unfold read_string. rewrite <- app_assoc.
  rewrite (unpack_first_pack _ _ _ _ En). cbn [bind].
  pose proof (len_nonneg u).
  destruct (Z.ltb_spec (len u) 0); [lia|].
  rewrite size_int_struct, <- (pack_int_len _ _ En), <- len_app.
  rewrite (app_assoc pre n), py_slice_middle.
  rewrite (utf8_decode_encode _ _ Eu). cbn [bind].
  rewrite !len_app. do 2 f_equal. lia.
Qed.

Lemma read_buffer_write_buffer (b : option (list byte))
  (pre bs post : list byte) :
  write_buffer b = Ok bs ->
  read_buffer (pre ++ bs ++ post) (len pre)
  = Ok (match b with Some x => x | None => [] end, len pre + len bs).
Proof.
  assert (Hneg : pack int_struct [-1] = Ok bs ->
                 read_buffer (pre ++ bs ++ post) (len pre)
                 = Ok ([], len pre + len bs)).
  { intros H. unfold read_buffer.
    rewrite (unpack_first_pack _ _ _ _ H). cbn [bind].
    rewrite (pack_int_len _ _ H), size_int_struct. reflexivity. }
  destruct b as [[|x b]|]; cbn [write_buffer]; try exact Hneg.
  clear Hneg.
  destruct (pack int_struct [len (x :: b)]) as [n|] eqn:En; [|discriminate].
  cbn [bind]. intros H. apply Ok_inj in H. subst bs.
  unfold read_buffer. rewrite <- app_assoc.
  rewrite (unpack_first_pack _ _ _ _ En). cbn [bind].
  pose proof (len_nonneg (x :: b)).
  destruct (Z.ltb_spec (len (x :: b)) 0); [lia|].
  rewrite size_int_struct, <- (pack_int_len _ _ En), <- len_app.
  rewrite (app_assoc pre n), py_slice_middle.
  rewrite !len_app. do 2 f_equal. lia.
Qed.

(** ** ACL entries and ACL lists *)

Lemma read_acl_entry_bytes (a : ACL) (pre e post : list byte) :
  acl_entry_bytes a = Ok e ->
  read_acl (pre ++ e ++ post) (len pre) = Ok (wire_acl a, len pre + len e).
Proof.
  unfold acl_entry_bytes.
  destruct (pack int_struct [perms a]) as [p|] eqn:Ep; [|discriminate].
  destruct (write_string (scheme (acl_id a))) as [s|] eqn:Es; [|discriminate].
  destruct (write_string (id (acl_id a))) as [i|] eqn:Ei; [|discriminate].
  cbn [bind]. intros H. apply Ok_inj in H. subst e.
  unfold read_acl. rewrite <- !app_assoc.
  rewrite (unpack_first_pack _ _ _ _ Ep). cbn [bind].
  rewrite size_int_struct, <- (pack_int_len _ _ Ep), <- len_app.
  rewrite (app_assoc pre p).
  rewrite (read_string_write_string _ _ _ _ Es). cbn [bind].
  rewrite <- len_app, (app_assoc (pre ++ p) s).
  rewrite (read_string_write_string _ _ _ _ Ei). cbn [bind].
  unfold wire_acl. rewrite !len_app. do 2 f_equal. lia.
Qed.

Lemma read_acls_extend_acls (acls : list ACL) :
  forall b out,
    extend_acls b acls = Ok out ->
    exists e,
      out = b ++ e /\
      forall pre post acc,
        read_acls (length acls) (pre ++ e ++ post) (len pre) acc
        = Ok (acc ++ map wire_acl acls, len pre + len e).
Proof.
  induction acls as [|a acls IH]; intros b out H; cbn [extend_acls] in H.
  - apply Ok_inj in H. subst out. exists []. split.
    + symmetry. apply app_nil_r.
    + intros pre post acc. cbn [read_acls map length].
      rewrite app_nil_r. unfold len at 3. simpl. do 2 f_equal. lia.
  - destruct (acl_entry_bytes a) as [ea|] eqn:Ea; [|discriminate].
    cbn [bind] in H. destruct (IH _ _ H) as (e & -> & Hread).
    exists (ea ++ e). split.
    + symmetry. apply app_assoc.
    + intros pre post acc. cbn [read_acls map length].
      rewrite <- app_assoc.
      rewrite (read_acl_entry_bytes _ _ _ _ Ea). cbn [bind].
      rewrite <- len_app, (app_assoc pre ea), Hread.
      rewrite <- app_assoc, !len_app. cbn [app]. do 2 f_equal. lia.
Qed.

Lemma wire_text_id (s : option text) : s <> Some [] -> wire_text s = s.
Proof.
  destruct s as [[|c s]|]; intros H; [|reflexivity..].
  exfalso. apply H. reflexivity.
Qed.

Lemma wire_acl_id (a : ACL) : no_empty_text a -> wire_acl a = a.
Proof.
  destruct a as [p [s i]]. unfold no_empty_text, wire_acl. simpl.
  intros [Hs Hi]. rewrite !wire_text_id by assumption. reflexivity.
Qed.

Lemma map_wire_acl_id (acls : list ACL) :
  Forall no_empty_text acls -> map wire_acl acls = acls.
Proof.
  induction 1 as [|a l Ha _ IH]; simpl; [reflexivity|].
  rewrite wire_acl_id, IH by assumption. reflexivity.
Qed.

(** ** The node-metadata record *)

Lemma size_stat_struct : size stat_struct = 68.
Proof. reflexivity. Qed.

Lemma ZnodeStat_make_total (bs : list byte) :
  exists st, ZnodeStat_make (unpack_fields stat_struct bs) = Ok st.
Proof.
  cbn [stat_struct Struct parse_codes unpack_fields ZnodeStat_make].
  eexists. reflexivity.
Qed.

Lemma stat_decode_total (bytes : list byte) (offset : Z) :
  0 <= offset -> offset + size stat_struct <= len bytes ->
  exists st, SetData.deserialize bytes offset = Ok st.
Proof.
  intros H0 H1. unfold SetData.deserialize.
  rewrite unpack_from_ok by assumption. cbn [bind].
  apply ZnodeStat_make_total.
Qed.

Lemma stat_decode_short (buffer : list byte) (offset : Z) :
  0 <= offset -> len buffer < offset + size stat_struct ->
  SetData.deserialize buffer offset = Raise StructError.
Proof.
  intros H0 H1. unfold SetData.deserialize, unpack_from.
  destruct (Z.ltb_spec offset 0); [lia|].
  destruct (Z.ltb_spec offset 0); [lia|].
  destruct (Z.ltb_spec (len buffer - offset) (size stat_struct)); [|lia].
  reflexivity.
Qed.

(** C1 (as the code has it). The node-metadata layout [!qqqqiiiqiiq] is 68
    bytes long: six 8-byte and five 4-byte fields. Decoding the packed
    form of eleven field values, wherever it sits in a buffer, rebuilds
    the record with the fields in the documented order (czxid, mzxid,
    ctime, mtime, version, cversion, aversion, ephemeralOwner, dataLength,
    numChildren, pzxid); the record occupies exactly 68 bytes, and a
    buffer with fewer than 68 bytes from the offset on is rejected. *)
Theorem stat_record_decode :
  forall (c m ct mt v cv av eo dl nc pz : Z) (pre bs post : list byte),
    pack stat_struct [c; m; ct; mt; v; cv; av; eo; dl; nc; pz] = Ok bs ->
    size stat_struct = 68 /\
    len bs = 68 /\
    SetData.deserialize (pre ++ bs ++ post) (len pre)
    = Ok (mkZnodeStat c m ct mt v cv av eo dl nc pz) /\
    (forall buffer offset,
        0 <= offset -> len buffer < offset + 68 ->
        SetData.deserialize buffer offset = Raise StructError).
Proof.
  intros c m ct mt v cv av eo dl nc pz pre bs post H.
  split; [reflexivity|]. split; [exact (pack_length _ _ _ H)|]. split.
  - unfold SetData.deserialize.
    rewrite (unpack_from_pack _ _ _ _ _ H). reflexivity.
  - intros buffer offset H0 H1. apply stat_decode_short; assumption.
Qed.

Lemma stat_record_decode_witness :
  size stat_struct = 68 /\
  len (repeat x00 67 ++ [x07]) = 68 /\
  SetData.deserialize ([x2a] ++ (repeat x00 67 ++ [x07]) ++ [xff]) (len [x2a])
  = Ok (mkZnodeStat 0 0 0 0 0 0 0 0 0 0 7) /\
  (forall buffer offset,
      0 <= offset -> len buffer < offset + 68 ->
      SetData.deserialize buffer offset = Raise StructError).
Proof.
  apply (stat_record_decode 0 0 0 0 0 0 0 0 0 0 7). vm_compute. reflexivity.
Defined.

(** C1, as stated, fails: the record size is not 88 bytes; a buffer of 68
    bytes already holds a full record and decodes. *)
Lemma stat_record_size_counterexample :
  size stat_struct <> 88 /\
  len (repeat xff 68) = 68 /\
  SetData.deserialize (repeat xff 68) 0
  = Ok (mkZnodeStat (-1) (-1) (-1) (-1) (-1) (-1) (-1) (-1) (-1) (-1) (-1)).
Proof.
  split; [|split].
  - vm_compute. discriminate.
  - reflexivity.
  - vm_compute. reflexivity.
Qed.

(** C6. On a buffer holding a node-metadata record at the offset,
    [Exists.deserialize] returns the decoded record when its czxid differs
    from -1 and returns [None] ("no such node") when it equals -1. *)
Theorem Exists_deserialize_sentinel :
  forall (bytes : list byte) (offset : Z),
    0 <= offset -> offset + size stat_struct <= len bytes ->
    exists stat,
      SetData.deserialize bytes offset = Ok stat /\
      (czxid stat <> -1 -> Exists.deserialize bytes offset = Ok (Some stat)) /\
      (czxid stat = -1 -> Exists.deserialize bytes offset = Ok None).
Proof.
  intros bytes offset H0 H1.
  destruct (stat_decode_total bytes offset H0 H1) as [stat Hst].
  exists stat. split; [assumption|].
  unfold Exists.deserialize. unfold SetData.deserialize in Hst.
  destruct (unpack_from stat_struct bytes offset) as [vs|]; [|discriminate].
  cbn [bind] in *. rewrite Hst. cbn [bind].
  split; intros Hc.
  - destruct (Z.eqb_spec (czxid stat) (-1)); [contradiction|reflexivity].
  - rewrite Hc. reflexivity.
Qed.

Lemma Exists_deserialize_sentinel_witness :
  exists stat,
    SetData.deserialize (repeat xff 68) 0 = Ok stat /\
    (czxid stat <> -1 ->
     Exists.deserialize (repeat xff 68) 0 = Ok (Some stat)) /\
    (czxid stat = -1 -> Exists.deserialize (repeat xff 68) 0 = Ok None).
Proof.
  apply (Exists_deserialize_sentinel (repeat xff 68) 0).
  - lia.
  - vm_compute. discriminate.
Defined.

(** C2 (the code departs from it). [SetACL.serialize] never returns
    bytes: once the path is written, reading [self.acl] on a tuple whose
    field is [acls] raises [AttributeError]. *)
Theorem SetACL_serialize_raises :
  forall self : SetACL.t,
    SetACL.serialize self
    = (p <- write_string (SetACL.path self) ;; Raise (AttributeError "acl")).
Proof.
  intros self. unfold SetACL.serialize.
  change (SetACL.getattr self "path")
    with (Ok (SetACL.AText (SetACL.path self))).
  change (SetACL.getattr self "acl")
    with (@Raise SetACL.attr (AttributeError "acl")).
  cbn [bind SetACL.as_text].
  destruct (write_string (SetACL.path self)); reflexivity.
Qed.

(** C9. Two [GetChildren] values with the same path and watcher encode to
    the same bytes, whatever their [children] field holds. *)
Theorem GetChildren_serialize_ignores_children :
  forall (path : option text) (children1 children2 watcher : pyobj),
    GetChildren.serialize (GetChildren.mk path children1 watcher)
    = GetChildren.serialize (GetChildren.mk path children2 watcher).
Proof.
  intros path children1 children2 watcher. reflexivity.
Qed.

(** C3 (as the code has it). For every text value other than the empty
    text, the absent value included, [read_string] on the bytes
    [write_string] produced yields the value back; the empty text is
    written as the absent value and read back as such. In both cases the
    final offset is the starting offset plus the number of bytes
    written, at offset 0 and at any other position of a buffer. *)
Theorem string_roundtrip :
  forall (s : option text) (bs pre post : list byte),
    write_string s = Ok bs ->
    (s <> Some [] ->
     read_string bs 0 = Ok (s, 0 + len bs) /\
     read_string (pre ++ bs ++ post) (len pre) = Ok (s, len pre + len bs)) /\
    (s = Some [] ->
     read_string bs 0 = Ok (None, 0 + len bs) /\
     read_string (pre ++ bs ++ post) (len pre) = Ok (None, len pre + len bs)).
Proof.
  intros s bs pre post H.
  pose proof (read_string_write_string s [] bs [] H) as H0.
  pose proof (read_string_write_string s pre bs post H) as H1.
  rewrite app_nil_r in H0. cbn [app] in H0. change (len []) with 0 in H0.
  split; intros Hs.
  - rewrite (wire_text_id _ Hs) in H0, H1. split; assumption.
  - subst s. split; assumption.
Qed.

Lemma string_roundtrip_witness :
  (Some [47; 233; 8364] <> Some [] ->
   read_string [x00; x00; x00; x06; x2f; xc3; xa9; xe2; x82; xac] 0
   = Ok (Some [47; 233; 8364],
         0 + len [x00; x00; x00; x06; x2f; xc3; xa9; xe2; x82; xac]) /\
   read_string
     ([x01] ++ [x00; x00; x00; x06; x2f; xc3; xa9; xe2; x82; xac] ++ [x02])
     (len [x01])
   = Ok (Some [47; 233; 8364],
         len [x01] + len [x00; x00; x00; x06; x2f; xc3; xa9; xe2; x82; xac]))
  /\
  (Some [47; 233; 8364] = Some [] ->
   read_string [x00; x00; x00; x06; x2f; xc3; xa9; xe2; x82; xac] 0
   = Ok (None, 0 + len [x00; x00; x00; x06; x2f; xc3; xa9; xe2; x82; xac]) /\
   read_string
     ([x01] ++ [x00; x00; x00; x06; x2f; xc3; xa9; xe2; x82; xac] ++ [x02])
     (len [x01])
   = Ok (None,
         len [x01] + len [x00; x00; x00; x06; x2f; xc3; xa9; xe2; x82; xac])).
Proof.
  apply (string_roundtrip (Some [47; 233; 8364])). vm_compute. reflexivity.
Defined.

(** C3, as stated, fails at the empty text: it is written as -1 and read
    back as the absent value. *)
Lemma string_roundtrip_empty_counterexample :
  ~ (forall (s : option text) (bs : list byte),
        write_string s = Ok bs -> read_string bs 0 = Ok (s, 0 + len bs)).
Proof.
  intros H.
  specialize (H (Some []) [xff; xff; xff; xff] eq_refl).
  vm_compute in H. discriminate H.
Qed.

(** C8. For a non-empty byte string [b], [read_buffer] on the bytes
    [write_buffer] produced returns [b] and the offset past the 4-byte
    length and the payload; an empty or absent buffer is written as the
    4-byte -1, which [read_buffer] reads as the empty byte string,
    advancing past the length only. *)
Theorem buffer_roundtrip :
  forall (b bs : list byte),
    b <> [] -> write_buffer (Some b) = Ok bs ->
    (read_buffer bs 0 = Ok (b, 4 + len b) /\ len bs = 4 + len b) /\
    (forall e : option (list byte),
        e = None \/ e = Some [] ->
        exists m,
          write_buffer e = Ok m /\ pack int_struct [-1] = Ok m /\
          read_buffer m 0 = Ok ([], 4)).
Proof.
  intros b bs Hb H. split.
  - pose proof (read_buffer_write_buffer (Some b) [] bs [] H) as H0.
    rewrite app_nil_r in H0. cbn [app] in H0. change (len []) with 0 in H0.
    assert (L : len bs = 4 + len b).
    { destruct b as [|x b]; [contradiction|]. cbn [write_buffer] in H.
      destruct (pack int_struct [len (x :: b)]) as [n|] eqn:En;
        [|discriminate].
      cbn [bind] in H. apply Ok_inj in H. subst bs.
      rewrite len_app, (pack_int_len _ _ En). reflexivity. }
    rewrite H0, L. split; reflexivity.
  - intros e [-> | ->]; exists [xff; xff; xff; xff]; repeat split.
Qed.

Lemma buffer_roundtrip_witness :
  (read_buffer [x00; x00; x00; x02; x68; x69] 0
   = Ok ([x68; x69], 4 + len [x68; x69]) /\
   len [x00; x00; x00; x02; x68; x69] = 4 + len [x68; x69]) /\
  (forall e : option (list byte),
      e = None \/ e = Some [] ->
      exists m,
        write_buffer e = Ok m /\ pack int_struct [-1] = Ok m /\
        read_buffer m 0 = Ok ([], 4)).
Proof.
  apply (buffer_roundtrip [x68; x69]).
  - discriminate.
  - vm_compute. reflexivity.
Defined.

(** C10. On a buffer whose length prefix at the offset is 0,
    [read_string] returns the empty text, not the absent value, and
    advances the offset by 4; and no output of [write_string] starts
    with the length prefix 0. *)
Theorem read_string_zero_length :
  forall (buffer : list byte) (offset : Z),
    unpack_first int_struct buffer offset = Ok 0 ->
    read_string buffer offset = Ok (Some [], offset + 4) /\
    (forall (s : option text) (bs : list byte),
        write_string s = Ok bs -> unpack_first int_struct bs 0 <> Ok 0).
Proof.
  intros buffer offset H. split.
  - unfold read_string. rewrite H. cbn [bind].
    change (0 <? 0) with false. cbv iota.
    unfold py_slice. rewrite Z.add_0_r, Z.sub_diag. cbn [Z.to_nat firstn].
    reflexivity.
  - intros s bs Hw.
    assert (Hneg : forall m, pack int_struct [-1] = Ok m ->
                             unpack_first int_struct m 0 <> Ok 0).
    { intros m Hm. pose proof (unpack_first_pack _ [] _ [] Hm) as U.
      rewrite app_nil_r in U. cbn [app] in U. change (len []) with 0 in U.
      rewrite U. discriminate. }
    destruct s as [[|c s]|]; cbn [write_string] in Hw;
      try (apply Hneg; assumption).
    destruct (utf8_encode (c :: s)) as [u|] eqn:Eu; [|discriminate].
    cbn [bind] in Hw.
    destruct (pack int_struct [len u]) as [n|] eqn:En; [|discriminate].
    cbn [bind] in Hw. apply Ok_inj in Hw. subst bs.
    pose proof (unpack_first_pack _ [] _ u En) as U.
    cbn [app] in U. change (len []) with 0 in U. rewrite U.
    pose proof (utf8_encode_nonempty _ _ _ Eu). intros E.
    apply Ok_inj in E. lia.
Qed.

Lemma read_string_zero_length_witness :
  read_string [x2a; x00; x00; x00; x00; x2b] 1 = Ok (Some [], 1 + 4) /\
  (forall (s : option text) (bs : list byte),
      write_string s = Ok bs -> unpack_first int_struct bs 0 <> Ok 0).
Proof.
  apply (read_string_zero_length [x2a; x00; x00; x00; x00; x2b] 1).
  vm_compute. reflexivity.
Defined.

(** ** The handshake *)

Lemma unpack_first_ok (buffer : list byte) (offset : Z) :
  0 <= offset -> offset + 4 <= len buffer ->
  exists v, unpack_first int_struct buffer offset = Ok v.
Proof.
  intros H0 H1. unfold unpack_first.
  rewrite unpack_from_ok by (rewrite ?size_int_struct; lia).
  cbn [int_struct Struct parse_codes unpack_fields bind].
  eexists. reflexivity.
Qed.

Lemma read_buffer_total (bytes : list byte) (offset : Z) :
  0 <= offset -> offset + 4 <= len bytes ->
  exists b off', read_buffer bytes offset = Ok (b, off').
Proof.
  intros H0 H1. unfold read_buffer.
  destruct (unpack_first_ok bytes offset H0 H1) as [v ->]. cbn [bind].
  destruct (v <? 0); eexists; eexists; reflexivity.
Qed.

(** C5. The handshake request with protocol version 0, last zxid 0,
    timeout 30000, session id 0, empty password and read-only false
    encodes to the packed (int, long, int, long) fields, then the
    length-prefixed password, then one byte 0. Every buffer holding the
    (int, int, long) fields and a buffer length at the offset decodes to a
    handshake whose last zxid is 0 and whose read-only flag is 0. *)
Theorem Connect_handshake :
  forall (bytes : list byte) (offset : Z),
    0 <= offset ->
    offset + size int_int_long_struct + size int_struct <= len bytes ->
    (exists h p,
        pack int_long_int_long_struct [0; 0; 30000; 0] = Ok h /\
        write_buffer (Some []) = Ok p /\
        Connect.serialize (Connect.mk 0 0 30000 0 (Some []) (PyBool false))
        = Ok (h ++ p ++ [x00])) /\
    (exists c off',
        Connect.deserialize bytes offset = Ok (c, off') /\
        Connect.last_zxid_seen c = 0 /\
        Connect.read_only c = PyInt 0).
Proof.
  intros bytes offset H0 H1. split.
  - eexists. eexists. repeat split.
  - change (size int_int_long_struct) with 16 in H1.
    change (size int_struct) with 4 in H1.
    unfold Connect.deserialize.
    rewrite unpack_from_ok
      by (change (size int_int_long_struct) with 16; lia).
    cbn [int_int_long_struct Struct parse_codes unpack_fields bind].
    change (size [Fi; Fi; Fq]) with 16.
    destruct (read_buffer_total bytes (offset + 16)) as (b & off' & ->);
      [lia..|].
    cbn [bind]. eexists. eexists. repeat split.
Qed.

Lemma Connect_handshake_witness :
  (exists h p,
      pack int_long_int_long_struct [0; 0; 30000; 0] = Ok h /\
      write_buffer (Some []) = Ok p /\
      Connect.serialize (Connect.mk 0 0 30000 0 (Some []) (PyBool false))
      = Ok (h ++ p ++ [x00])) /\
  (exists c off',
      Connect.deserialize (repeat x00 19 ++ [x01; x2a]) 0 = Ok (c, off') /\
      Connect.last_zxid_seen c = 0 /\
      Connect.read_only c = PyInt 0).
Proof.
  apply (Connect_handshake (repeat x00 19 ++ [x01; x2a]) 0).
  - lia.
  - vm_compute. discriminate.
Defined.

(** ** ACL lists *)

(** C7. With a count prefix of -1, [GetACL.deserialize] returns the
    empty list alone, whatever follows the count (nothing need follow);
    with a count prefix of 1 followed by one ACL entry and a
    node-metadata record, it returns the pair of the one-element list and
    the decoded record. *)
Theorem GetACL_deserialize_shapes :
  forall (bytes1 bytes2 : list byte) (offset1 offset2 : Z)
         (acl : ACL) (offset' : Z) (stat : ZnodeStat),
    unpack_first int_struct bytes1 offset1 = Ok (-1) ->
    unpack_first int_struct bytes2 offset2 = Ok 1 ->
    read_acl bytes2 (offset2 + 4) = Ok (acl, offset') ->
    SetData.deserialize bytes2 offset' = Ok stat ->
    GetACL.deserialize bytes1 offset1 = Ok (GetACL.Acls []) /\
    GetACL.deserialize bytes2 offset2 = Ok (GetACL.AclsStat [acl] stat).
Proof.
  intros bytes1 bytes2 offset1 offset2 acl offset' stat H1 H2 Ha Hs.
  unfold GetACL.deserialize. rewrite H1, H2. cbn [bind]. split.
  - reflexivity.
  - change (1 =? -1) with false. cbv iota.
    change (Z.to_nat 1) with 1%nat. cbn [read_acls].
    change (size int_struct) with 4. rewrite Ha. cbn [bind app].
    unfold SetData.deserialize in Hs.
    destruct (unpack_from stat_struct bytes2 offset') as [vs|];
      [|discriminate].
    cbn [bind] in *. rewrite Hs. reflexivity.
Qed.

Lemma GetACL_deserialize_shapes_witness :
  GetACL.deserialize [xff; xff; xff; xff] 0 = Ok (GetACL.Acls []) /\
  GetACL.deserialize
    ([x00; x00; x00; x01;
      x00; x00; x00; x1f;
      x00; x00; x00; x05; x77; x6f; x72; x6c; x64;
      x00; x00; x00; x06; x61; x6e; x79; x6f; x6e; x65]
     ++ repeat x00 67 ++ [x09]) 0
  = Ok (GetACL.AclsStat
          [mkACL 31 (mkId (Some [119; 111; 114; 108; 100])
                          (Some [97; 110; 121; 111; 110; 101]))]
          (mkZnodeStat 0 0 0 0 0 0 0 0 0 0 9)).
Proof.
  apply (GetACL_deserialize_shapes _ _ _ _ _ 27); vm_compute; reflexivity.
Defined.

(** The loop appends to [b] what it would append to an empty array. *)
Lemma extend_acls_app (acls : list ACL) :
  forall b,
    extend_acls b acls = (e <- extend_acls [] acls ;; Ok (b ++ e)).
Proof.
  induction acls as [|a acls IH]; intros b; cbn [extend_acls bind].
  - rewrite app_nil_r. reflexivity.
  - destruct (acl_entry_bytes a) as [ea|]; [|reflexivity]. cbn [bind app].
    rewrite (IH (b ++ ea)), (IH ea).
    destruct (extend_acls [] acls) as [e|]; [|reflexivity]. cbn [bind].
    rewrite app_assoc. reflexivity.
Qed.

(** The layout of what [Create.serialize] returns: path, data, the ACL
    list (count, then entries) and the flags. *)
Lemma Create_serialize_layout (c : Create.t) (bs : list byte) :
  Create.serialize c = Ok bs ->
  exists p d n e f,
    write_string (Create.path c) = Ok p /\
    write_buffer (Create.data c) = Ok d /\
    pack int_struct [len (Create.acl c)] = Ok n /\
    extend_acls [] (Create.acl c) = Ok e /\
    pack int_struct [Create.flags c] = Ok f /\
    bs = p ++ d ++ (n ++ e) ++ f.
Proof.
  unfold Create.serialize.
  destruct (write_string (Create.path c)) as [p|]; [|discriminate].
  destruct (write_buffer (Create.data c)) as [d|]; [|discriminate].
  destruct (pack int_struct [len (Create.acl c)]) as [n|]; [|discriminate].
  cbn [bind app]. rewrite extend_acls_app.
  destruct (extend_acls [] (Create.acl c)) as [e|]; [|discriminate].
  destruct (pack int_struct [Create.flags c]) as [f|]; [|discriminate].
  cbn [bind]. intros H. apply Ok_inj in H. subst bs.
  exists p, d, n, e, f. repeat split.
  rewrite <- !app_assoc. reflexivity.
Qed.

(** Decoding an ACL list written as a count and its entries, followed by
    a node-metadata record. *)
Lemma GetACL_deserialize_encoded (acls : list ACL) (n e rest : list byte)
  (st : ZnodeStat) :
  pack int_struct [len acls] = Ok n ->
  extend_acls [] acls = Ok e ->
  SetData.deserialize rest 0 = Ok st ->
  GetACL.deserialize ((n ++ e) ++ rest) 0
  = Ok (GetACL.AclsStat (map wire_acl acls) st).
Proof.
  intros Hn He Hst. unfold GetACL.deserialize.
  pose proof (unpack_first_pack _ [] _ (e ++ rest) Hn) as U.
  cbn [app] in U. change (len []) with 0 in U.
  rewrite <- app_assoc, U. cbn [bind].
  pose proof (len_nonneg acls).
  destruct (Z.eqb_spec (len acls) (-1)); [lia|].
  unfold len at 1. rewrite Nat2Z.id.
  destruct (read_acls_extend_acls _ _ _ He) as (e' & E & Hread).
  cbn [app] in E. subst e'.
  change (size int_struct) with 4. rewrite Z.add_0_l.
  rewrite <- (pack_int_len _ _ Hn), Hread. cbn [bind app].
  rewrite <- len_app, app_assoc.
  unfold SetData.deserialize in Hst.
  assert (Hu : unpack_from stat_struct ((n ++ e) ++ rest) (len (n ++ e))
               = unpack_from stat_struct rest 0).
  { destruct (Z_lt_le_dec (len rest) (size stat_struct)) as [Hlt|Hle].
    - unfold unpack_from in Hst.
      change (0 <? 0) with false in Hst. cbv iota in Hst.
      cbn [orb] in Hst. rewrite Z.sub_0_r in Hst.
      destruct (Z.ltb_spec (len rest) (size stat_struct)); [|lia].
      discriminate Hst.
    - pose proof (len_nonneg n). pose proof (len_nonneg e).
      rewrite !unpack_from_ok by (rewrite ?len_app; lia).
      rewrite skipn_len_pre. reflexivity. }
  rewrite Hu.
  destruct (unpack_from stat_struct rest 0) as [vs|]; [|discriminate].
  cbn [bind] in *. rewrite Hst. reflexivity.
Qed.

(** C4 (as the code has it). For every ACL list, of any length and so of
    length 0, 1 and 5, the count and entries that [Create.serialize]
    writes, followed by a node-metadata record, are decoded by
    [GetACL.deserialize] to the entries in the same order with the same
    permission bitmasks; every scheme and identifier text other than the
    empty text is preserved exactly, and the empty text is read back as
    the absent value. *)
Theorem acl_list_roundtrip :
  forall (c : Create.t) (bs rest : list byte) (stat : ZnodeStat),
    Create.serialize c = Ok bs ->
    SetData.deserialize rest 0 = Ok stat ->
    exists p d m f,
      write_string (Create.path c) = Ok p /\
      write_buffer (Create.data c) = Ok d /\
      pack int_struct [Create.flags c] = Ok f /\
      bs = p ++ d ++ m ++ f /\
      GetACL.deserialize (m ++ rest) 0
      = Ok (GetACL.AclsStat (map wire_acl (Create.acl c)) stat) /\
      (Forall no_empty_text (Create.acl c) ->
       GetACL.deserialize (m ++ rest) 0
       = Ok (GetACL.AclsStat (Create.acl c) stat)).
Proof.
  intros c bs rest stat H Hst.
  destruct (Create_serialize_layout _ _ H)
    as (p & d & n & e & f & Hp & Hd & Hn & He & Hf & ->).
  exists p, d, (n ++ e), f.
  pose proof (GetACL_deserialize_encoded _ _ _ _ _ Hn He Hst) as G.
  repeat split; try assumption.
  intros Hall. rewrite G, (map_wire_acl_id _ Hall). reflexivity.
Qed.

Lemma acl_list_roundtrip_witness :
  exists p d m f,
    write_string (Create.path example_create) = Ok p /\
    write_buffer (Create.data example_create) = Ok d /\
    pack int_struct [Create.flags example_create] = Ok f /\
    example_create_bytes = p ++ d ++ m ++ f /\
    GetACL.deserialize (m ++ repeat x00 68) 0
    = Ok (GetACL.AclsStat (map wire_acl (Create.acl example_create))
            (mkZnodeStat 0 0 0 0 0 0 0 0 0 0 0)) /\
    (Forall no_empty_text (Create.acl example_create) ->
     GetACL.deserialize (m ++ repeat x00 68) 0
     = Ok (GetACL.AclsStat (Create.acl example_create)
             (mkZnodeStat 0 0 0 0 0 0 0 0 0 0 0))).
Proof.
  apply (acl_list_roundtrip example_create example_create_bytes
           (repeat x00 68) (mkZnodeStat 0 0 0 0 0 0 0 0 0 0 0)).
  - vm_compute. reflexivity.
  - vm_compute. reflexivity.
Defined.

(** C4, as stated, fails for an entry with an empty identifier text: the
    one-entry list [ACL(31, Id('ip', ''))] is written with the identifier
    as -1 and read back as [ACL(31, Id('ip', None))]. *)
Lemma acl_list_roundtrip_empty_text_counterexample :
  Create.serialize
    (Create.mk (Some [47]) None
       [mkACL 31 (mkId (Some [105; 112]) (Some []))] 0)
  = Ok ([x00; x00; x00; x01; x2f] ++ [xff; xff; xff; xff]
        ++ [x00; x00; x00; x01;
            x00; x00; x00; x1f;
            x00; x00; x00; x02; x69; x70;
            xff; xff; xff; xff]
        ++ [x00; x00; x00; x00]) /\
  GetACL.deserialize
    ([x00; x00; x00; x01;
      x00; x00; x00; x1f;
      x00; x00; x00; x02; x69; x70;
      xff; xff; xff; xff] ++ repeat x00 68) 0
  = Ok (GetACL.AclsStat [mkACL 31 (mkId (Some [105; 112]) None)]
          (mkZnodeStat 0 0 0 0 0 0 0 0 0 0 0)) /\
  [mkACL 31 (mkId (Some [105; 112]) None)]
  <> [mkACL 31 (mkId (Some [105; 112]) (Some []))].
Proof.
  split; [|split].
  - vm_compute. reflexivity.
  - vm_compute. reflexivity.
  - discriminate.
Qed.

(* ------------------------------------------------------------------ *)
(** * Further properties of the codec *)

(** ** Integers on the wire *)

Lemma pack_int_ok (v : Z) :
  - 2 ^ 31 <= v < 2 ^ 31 -> exists bs, pack int_struct [v] = Ok bs.
Proof.
  intros H. cbn [int_struct Struct parse_codes pack].
  assert (R : in_range Fi v = true) by (apply in_range_spec; exact H).
  rewrite R. eexists. reflexivity.
Qed.

Lemma pack_int_overflow (v : Z) :
  ~ (- 2 ^ 31 <= v < 2 ^ 31) -> pack int_struct [v] = Raise StructError.
Proof.
  intros H. cbn [int_struct Struct parse_codes pack].
  destruct (in_range Fi v) eqn:R; [|reflexivity].
  apply in_range_spec in R. contradiction.
Qed.

Lemma unpack_from_short (st : list fmt_code) (buffer : list byte)
  (offset : Z) :
  0 <= offset -> len buffer < offset + size st ->
  unpack_from st buffer offset = Raise StructError.
Proof.
  intros H0 H1. unfold unpack_from.
  destruct (Z.ltb_spec offset 0); [lia|].
  destruct (Z.ltb_spec offset 0); [lia|].
  destruct (Z.ltb_spec (len buffer - offset) (size st)); [|lia].
  reflexivity.
Qed.

Lemma unpack_first_short (buffer : list byte) (offset : Z) :
  0 <= offset -> len buffer < offset + 4 ->
  unpack_first int_struct buffer offset = Raise StructError.
Proof.
  intros H0 H1. unfold unpack_first.
  rewrite unpack_from_short by (rewrite ?size_int_struct; lia).
  reflexivity.
Qed.

(** A successful [unpack_from] at a non-negative offset had the bytes. *)
Lemma unpack_first_bound (buffer : list byte) (offset v : Z) :
  0 <= offset -> unpack_first int_struct buffer offset = Ok v ->
  offset + 4 <= len buffer.
Proof.
  intros H0 H. destruct (Z_lt_le_dec (len buffer) (offset + 4)); [|lia].
  rewrite unpack_first_short in H by lia. discriminate.
Qed.

(** X1. A buffer with fewer than four bytes from a non-negative offset
    on is rejected with [struct.error] by every reader and by every
    response decoder that reads anything. *)
Theorem short_buffer_rejected :
  forall (buffer : list byte) (offset : Z),
    0 <= offset -> len buffer < offset + 4 ->
    read_string buffer offset = Raise StructError /\
    read_buffer buffer offset = Raise StructError /\
    read_acl buffer offset = Raise StructError /\
    Connect.deserialize buffer offset = Raise StructError /\
    Create.deserialize buffer offset = Raise StructError /\
    Exists.deserialize buffer offset = Raise StructError /\
    GetData.deserialize buffer offset = Raise StructError /\
    SetData.deserialize buffer offset = Raise StructError /\
    GetACL.deserialize buffer offset = Raise StructError /\
    SetACL.deserialize buffer offset = Raise StructError /\
    GetChildren.deserialize buffer offset = Raise StructError /\
    Sync.deserialize buffer offset = Raise StructError /\
    Watch.deserialize buffer offset = Raise StructError /\
    ReplyHeader.deserialize buffer offset = Raise StructError.
Proof.
  intros buffer offset H0 H1.
  pose proof (unpack_first_short buffer offset H0 H1) as U.
  assert (S : forall st, 4 <= size st ->
                         unpack_from st buffer offset = Raise StructError).
  { intros st Hs. apply unpack_from_short; lia. }
  unfold read_string, read_buffer, read_acl, Connect.deserialize,
    Create.deserialize, Exists.deserialize, GetData.deserialize,
    SetData.deserialize, GetACL.deserialize, SetACL.deserialize,
    GetChildren.deserialize, Sync.deserialize, Watch.deserialize,
    ReplyHeader.deserialize, read_string, read_buffer.
  rewrite U.
  rewrite (S int_int_long_struct), (S stat_struct), (S int_int_struct),
    (S reply_header_struct) by (vm_compute; discriminate).
  repeat split.
Qed.

Lemma short_buffer_rejected_witness :
  read_string [x00; x00; x00; x01; x41; x00; x00] 4 = Raise StructError /\
  read_buffer [x00; x00; x00; x01; x41; x00; x00] 4 = Raise StructError /\
  read_acl [x00; x00; x00; x01; x41; x00; x00] 4 = Raise StructError /\
  Connect.deserialize [x00; x00; x00; x01; x41; x00; x00] 4
  = Raise StructError /\
  Create.deserialize [x00; x00; x00; x01; x41; x00; x00] 4
  = Raise StructError /\
  Exists.deserialize [x00; x00; x00; x01; x41; x00; x00] 4
  = Raise StructError /\
  GetData.deserialize [x00; x00; x00; x01; x41; x00; x00] 4
  = Raise StructError /\
  SetData.deserialize [x00; x00; x00; x01; x41; x00; x00] 4
  = Raise StructError /\
  GetACL.deserialize [x00; x00; x00; x01; x41; x00; x00] 4
  = Raise StructError /\
  SetACL.deserialize [x00; x00; x00; x01; x41; x00; x00] 4
  = Raise StructError /\
  GetChildren.deserialize [x00; x00; x00; x01; x41; x00; x00] 4
  = Raise StructError /\
  Sync.deserialize [x00; x00; x00; x01; x41; x00; x00] 4
  = Raise StructError /\
  Watch.deserialize [x00; x00; x00; x01; x41; x00; x00] 4
  = Raise StructError /\
  ReplyHeader.deserialize [x00; x00; x00; x01; x41; x00; x00] 4
  = Raise StructError.
Proof.
  apply (short_buffer_rejected [x00; x00; x00; x01; x41; x00; x00] 4).
  - lia.
  - vm_compute. reflexivity.
Defined.

(** ** Readers: progress and missing bounds checks *)

(** X2. A reader that succeeds moves the offset forward: [read_string]
    and [read_buffer] by at least the four bytes of the length,
    [read_acl] by at least the twelve bytes of its three fixed parts. *)
Theorem readers_advance :
  forall (buffer : list byte) (offset : Z),
    (forall s off', read_string buffer offset = Ok (s, off') ->
                    offset + 4 <= off') /\
    (forall b off', read_buffer buffer offset = Ok (b, off') ->
                    offset + 4 <= off') /\
    (forall a off', read_acl buffer offset = Ok (a, off') ->
                    offset + 12 <= off').
Proof.
  intros buffer offset.
  assert (RS : forall o s off', read_string buffer o = Ok (s, off') ->
                                o + 4 <= off').
  { intros o s off'. unfold read_string.
    destruct (unpack_first int_struct buffer o) as [n|]; [|discriminate].
    cbn [bind]. change (size int_struct) with 4.
    destruct (Z.ltb_spec n 0).
    - intros E. apply Ok_inj in E. injection E as _ <-. lia.
    - destruct (utf8_decode _); [|discriminate]. cbn [bind].
      intros E. apply Ok_inj in E. injection E as _ <-. lia. }
  split; [apply RS|]. split.
  - intros b off'. unfold read_buffer.
    destruct (unpack_first int_struct buffer offset) as [n|]; [|discriminate].
    cbn [bind]. change (size int_struct) with 4.
    destruct (Z.ltb_spec n 0);
      intros E; apply Ok_inj in E; injection E as _ <-; lia.
  - intros a off'. unfold read_acl.
    destruct (unpack_first int_struct buffer offset) as [n|]; [|discriminate].
    cbn [bind]. change (size int_struct) with 4.
    destruct (read_string buffer (offset + 4)) as [[s o1]|] eqn:E1;
      [|discriminate].
    cbn [bind].
    destruct (read_string buffer o1) as [[i o2]|] eqn:E2; [|discriminate].
    cbn [bind]. intros E. apply Ok_inj in E. injection E as _ <-.
    apply RS in E1. apply RS in E2. lia.
Qed.

Lemma readers_advance_witness :
  0 + 4 <= 4 /\ 0 + 4 <= 4 /\ 0 + 12 <= 12.
Proof.
  destruct (readers_advance (repeat x00 12) 0) as (S & B & A).
  split; [|split].
  - apply (S (Some [])). vm_compute. reflexivity.
  - apply (B []). vm_compute. reflexivity.
  - apply (A (mkACL 0 (mkId (Some []) (Some [])))). vm_compute. reflexivity.
Defined.

(** X3. [read_buffer] does not check the declared length against the
    buffer: whenever the four length bytes are there and the length is
    not negative it succeeds, returns the bytes that remain, at most
    [length] of them, and advances the offset by 4 + [length] even past
    the end of the buffer. *)
Theorem read_buffer_truncates :
  forall (bytes : list byte) (offset n : Z),
    0 <= offset -> 0 <= n ->
    unpack_first int_struct bytes offset = Ok n ->
    exists b,
      read_buffer bytes offset = Ok (b, offset + 4 + n) /\
      len b = Z.min n (len bytes - (offset + 4)) /\
      b = firstn (Z.to_nat n) (skipn (Z.to_nat (offset + 4)) bytes).
Proof.
  intros bytes offset n H0 Hl H.
  pose proof (unpack_first_bound _ _ _ H0 H) as Hb.
  unfold read_buffer. rewrite H. cbn [bind]. change (size int_struct) with 4.
  destruct (Z.ltb_spec n 0); [lia|].
  eexists. split; [reflexivity|].
  unfold py_slice, slice_bound.
  destruct (Z.ltb_spec (offset + 4) 0); [lia|].
  destruct (Z.ltb_spec (offset + 4 + n) 0); [lia|].
  rewrite (Z.min_l (offset + 4)) by lia.
  assert (Ls : length (skipn (Z.to_nat (offset + 4)) bytes)
               = Z.to_nat (len bytes - (offset + 4))).
  { rewrite length_skipn. unfold len in *. lia. }
  split.
  - unfold len at 1. rewrite length_firstn, Ls. unfold len in *. lia.
  - destruct (Z_le_gt_dec (offset + 4 + n) (len bytes)).
    + rewrite Z.min_l by lia. f_equal. lia.
    + rewrite Z.min_r by lia.
      rewrite !firstn_all2; [reflexivity|rewrite Ls; lia..].
Qed.

Lemma read_buffer_truncates_witness :
  exists b,
    read_buffer [x00; x00; x00; x09; x41; x42] 0 = Ok (b, 0 + 4 + 9) /\
    len b = Z.min 9 (len [x00; x00; x00; x09; x41; x42] - (0 + 4)) /\
    b = firstn (Z.to_nat 9)
          (skipn (Z.to_nat (0 + 4)) [x00; x00; x00; x09; x41; x42]).
Proof.
  apply (read_buffer_truncates [x00; x00; x00; x09; x41; x42] 0 9).
  - lia.
  - lia.
  - vm_compute. reflexivity.
Defined.

(** X4. Any negative length prefix, not only -1, stands for the absent
    text in [read_string] and for the empty buffer in [read_buffer];
    only the four length bytes are consumed. *)
Theorem negative_length_prefix :
  forall (buffer : list byte) (offset n : Z),
    unpack_first int_struct buffer offset = Ok n -> n < 0 ->
    read_string buffer offset = Ok (None, offset + 4) /\
    read_buffer buffer offset = Ok ([], offset + 4).
Proof.
  intros buffer offset n H Hl. unfold read_string, read_buffer.
  rewrite H. cbn [bind].
  destruct (Z.ltb_spec n 0); [|lia]. split; reflexivity.
Qed.

Lemma negative_length_prefix_witness :
  read_string [x80; x00; x00; x07; x41] 0 = Ok (None, 0 + 4) /\
  read_buffer [x80; x00; x00; x07; x41] 0 = Ok ([], 0 + 4).
Proof.
  apply (negative_length_prefix [x80; x00; x00; x07; x41] 0 (-2147483641)).
  - vm_compute. reflexivity.
  - lia.
Defined.

(** ** Writers *)

Lemma utf8_encode_char_len (c : Z) (bs : list byte) :
  utf8_encode_char c = Ok bs -> 1 <= len bs <= 4.
Proof.
  unfold utf8_encode_char.
  repeat match goal with
    | |- context [if ?b then _ else _] => destruct b
    end; intros [= <-]; unfold len; simpl; lia.
Qed.

Lemma utf8_encode_len (s : text) :
  forall bs, utf8_encode s = Ok bs -> len s <= len bs <= 4 * len s.
Proof.
  induction s as [|c s IH]; intros bs H; cbn [utf8_encode] in H.
  - apply Ok_inj in H. subst bs. unfold len. simpl. lia.
  - destruct (utf8_encode_char c) as [b1|] eqn:E1; [|discriminate].
    destruct (utf8_encode s) as [b2|] eqn:E2; [|discriminate].
    cbn [bind] in H. apply Ok_inj in H. subst bs.
    pose proof (utf8_encode_char_len _ _ E1). pose proof (IH _ eq_refl).
    rewrite len_app. unfold len in *. cbn [length]. lia.
Qed.

(** X5. For a non-empty text the length prefix [write_string] writes is
    the number of UTF-8 bytes that follow it, which lies between the
    number of characters and four times that number. *)
Theorem write_string_prefix_counts_bytes :
  forall (c : Z) (s : text) (bs : list byte),
    write_string (Some (c :: s)) = Ok bs ->
    unpack_first int_struct bs 0 = Ok (len bs - 4) /\
    utf8_encode (c :: s) = Ok (skipn 4 bs) /\
    len (c :: s) <= len bs - 4 <= 4 * len (c :: s).
Proof.
  intros c s bs H. cbn [write_string] in H.
  destruct (utf8_encode (c :: s)) as [u|] eqn:Eu; [|discriminate].
  cbn [bind] in H.
  destruct (pack int_struct [len u]) as [n|] eqn:En; [|discriminate].
  cbn [bind] in H. apply Ok_inj in H. subst bs.
  pose proof (pack_int_len _ _ En) as Ln.
  pose proof (unpack_first_pack _ [] _ u En) as U.
  cbn [app] in U. change (len []) with 0 in U.
  rewrite U, len_app, Ln.
  replace (4 + len u - 4) with (len u) by lia.
  split; [reflexivity|]. split.
  - f_equal. replace 4%nat with (length n) by (unfold len in Ln; lia).
    symmetry. apply skipn_len_app.
  - apply utf8_encode_len. assumption.
Qed.

Lemma write_string_prefix_counts_bytes_witness :
  unpack_first int_struct [x00; x00; x00; x04; x2f; xe2; x82; xac] 0
  = Ok (len [x00; x00; x00; x04; x2f; xe2; x82; xac] - 4) /\
  utf8_encode [47; 8364]
  = Ok (skipn 4 [x00; x00; x00; x04; x2f; xe2; x82; xac]) /\
  len [47; 8364] <= len [x00; x00; x00; x04; x2f; xe2; x82; xac] - 4
                 <= 4 * len [47; 8364].
Proof.
  apply (write_string_prefix_counts_bytes 47 [8364]).
  vm_compute. reflexivity.
Defined.

(** X6. The encoding of a text is self-delimiting: if two outputs of
    [write_string], each followed by arbitrary bytes, give the same byte
    string, then the outputs are equal, so are the bytes that follow,
    and the two texts are read back as the same value (they are equal,
    or one is the empty and the other the absent text). *)
Theorem write_string_prefix_free :
  forall (s1 s2 : option text) (b1 b2 r1 r2 : list byte),
    write_string s1 = Ok b1 -> write_string s2 = Ok b2 ->
    b1 ++ r1 = b2 ++ r2 ->
    wire_text s1 = wire_text s2 /\ b1 = b2 /\ r1 = r2.
Proof.
  intros s1 s2 b1 b2 r1 r2 H1 H2 E.
  pose proof (read_string_write_string s1 [] b1 r1 H1) as R1.
  pose proof (read_string_write_string s2 [] b2 r2 H2) as R2.
  cbn [app] in R1, R2. change (len []) with 0 in R1, R2.
  rewrite E, R2 in R1. apply Ok_inj in R1. injection R1 as Hw Hl.
  split; [congruence|].
  assert (L : length b1 = length b2) by (unfold len in Hl; lia).
  assert (Hb : b1 = b2).
  { rewrite <- (firstn_len_app b1 r1), <- (firstn_len_app b2 r2), E, L.
    reflexivity. }
  split; [exact Hb|]. subst b2. apply app_inv_head in E. exact E.
Qed.

Lemma write_string_prefix_free_witness :
  wire_text (Some []) = wire_text None /\
  [xff; xff; xff; xff] = [xff; xff; xff; xff] /\ [x01] = [x01].
Proof.
  apply (write_string_prefix_free (Some []) None
           [xff; xff; xff; xff] [xff; xff; xff; xff] [x01] [x01]);
    reflexivity.
Defined.

(** ** Response decoders on well-formed responses *)

(** X7. [ReplyHeader.deserialize] on the packed (int, long, int) form of
    a correlation id, a transaction id and a status code returns these
    three values and the offset sixteen bytes further. *)
Theorem ReplyHeader_deserialize_packed :
  forall (xid zxid err : Z) (pre h post : list byte),
    pack reply_header_struct [xid; zxid; err] = Ok h ->
    ReplyHeader.deserialize (pre ++ h ++ post) (len pre)
    = Ok (ReplyHeader.mk xid zxid err, len pre + 16) /\
    len h = 16.
Proof.
  intros xid zxid err pre h post H. unfold ReplyHeader.deserialize.
  rewrite (unpack_from_pack _ _ _ _ _ H). split; [reflexivity|].
  exact (pack_length _ _ _ H).
Qed.

Lemma ReplyHeader_deserialize_packed_witness :
  ReplyHeader.deserialize
    ([x07] ++ [x00; x00; x00; x2a;
               x00; x00; x00; x00; x00; x01; x86; xa0;
               xff; xff; xff; x9b] ++ [x08])
    (len [x07])
  = Ok (ReplyHeader.mk 42 100000 (-101), len [x07] + 16) /\
  len [x00; x00; x00; x2a;
       x00; x00; x00; x00; x00; x01; x86; xa0;
       xff; xff; xff; x9b] = 16.
Proof.
  apply (ReplyHeader_deserialize_packed 42 100000 (-101)).
  vm_compute. reflexivity.
Defined.

(** X8. [Watch.deserialize] on the packed event type and state followed
    by a written path returns the three fields and the offset just past
    them; an empty path comes back as the absent one. *)
Theorem Watch_deserialize_packed :
  forall (type state : Z) (path : option text) (pre h p post : list byte),
    pack int_int_struct [type; state] = Ok h ->
    write_string path = Ok p ->
    Watch.deserialize (pre ++ h ++ p ++ post) (len pre)
    = Ok (Watch.mk type state (wire_text path), len pre + len h + len p).
Proof.
  intros type state path pre h p post Hh Hp. unfold Watch.deserialize.
  rewrite (unpack_from_pack _ _ _ _ _ Hh). cbn [bind].
  rewrite <- (pack_length _ _ _ Hh), <- len_app, app_assoc.
  rewrite (read_string_write_string _ _ _ _ Hp). reflexivity.
Qed.

Lemma Watch_deserialize_packed_witness :
  Watch.deserialize
    ([x07] ++ [x00; x00; x00; x04; x00; x00; x00; x03]
     ++ [x00; x00; x00; x02; x2f; x61] ++ [x08])
    (len [x07])
  = Ok (Watch.mk 4 3 (wire_text (Some [47; 97])),
        len [x07] + len [x00; x00; x00; x04; x00; x00; x00; x03]
        + len [x00; x00; x00; x02; x2f; x61]).
Proof.
  apply (Watch_deserialize_packed 4 3 (Some [47; 97]));
    vm_compute; reflexivity.
Defined.

(** X9. [Connect.deserialize] on the packed (int, int, long) form of a
    protocol version, a timeout and a session id followed by a written
    password returns these values, the password (empty when absent), the
    last zxid 0 and the read-only flag 0, and the offset just past the
    password. *)
Theorem Connect_deserialize_packed :
  forall (proto timeout session : Z) (passwd : option (list byte))
         (pre h p post : list byte),
    pack int_int_long_struct [proto; timeout; session] = Ok h ->
    write_buffer passwd = Ok p ->
    Connect.deserialize (pre ++ h ++ p ++ post) (len pre)
    = Ok (Connect.mk proto 0 timeout session (Some (wire_buffer passwd))
            (PyInt 0),
          len pre + len h + len p).
Proof.
  intros proto timeout session passwd pre h p post Hh Hp.
  unfold Connect.deserialize.
  rewrite (unpack_from_pack _ _ _ _ _ Hh). cbn [bind].
  rewrite <- (pack_length _ _ _ Hh), <- len_app, app_assoc.
  rewrite (read_buffer_write_buffer _ _ _ _ Hp). reflexivity.
Qed.

Lemma Connect_deserialize_packed_witness :
  Connect.deserialize
    ([x07] ++ [x00; x00; x00; x00; x00; x00; x75; x30;
               x00; x00; x00; x00; x00; x00; x00; x63]
     ++ [x00; x00; x00; x02; x70; x77] ++ [x08])
    (len [x07])
  = Ok (Connect.mk 0 0 30000 99 (Some (wire_buffer (Some [x70; x77])))
          (PyInt 0),
        len [x07]
        + len [x00; x00; x00; x00; x00; x00; x75; x30;
               x00; x00; x00; x00; x00; x00; x00; x63]
        + len [x00; x00; x00; x02; x70; x77]).
Proof.
  apply (Connect_deserialize_packed 0 30000 99 (Some [x70; x77]));
    vm_compute; reflexivity.
Defined.

(** X10. [GetData.deserialize] on a written data buffer followed by the
    packed node-metadata record returns the data (empty when absent or
    empty) and the record. *)
Theorem GetData_deserialize_packed :
  forall (data : option (list byte)) (c m ct mt v cv av eo dl nc pz : Z)
         (pre d sb post : list byte),
    write_buffer data = Ok d ->
    pack stat_struct [c; m; ct; mt; v; cv; av; eo; dl; nc; pz] = Ok sb ->
    GetData.deserialize (pre ++ d ++ sb ++ post) (len pre)
    = Ok (wire_buffer data, mkZnodeStat c m ct mt v cv av eo dl nc pz).
Proof.
  intros data c m ct mt v cv av eo dl nc pz pre d sb post Hd Hs.
  unfold GetData.deserialize.
  rewrite (read_buffer_write_buffer _ _ _ _ Hd). cbn [bind].
  rewrite <- len_app, app_assoc.
  rewrite (unpack_from_pack _ _ _ _ _ Hs). reflexivity.
Qed.

Lemma GetData_deserialize_packed_witness :
  GetData.deserialize
    ([x07] ++ [x00; x00; x00; x02; x68; x69]
     ++ (repeat x00 67 ++ [x05]) ++ [x08])
    (len [x07])
  = Ok (wire_buffer (Some [x68; x69]), mkZnodeStat 0 0 0 0 0 0 0 0 0 0 5).
Proof.
  apply (GetData_deserialize_packed (Some [x68; x69]));
    vm_compute; reflexivity.
Defined.

(** X11. The path responses: [Create.deserialize] and [Sync.deserialize]
    return the text that [write_string] wrote at the offset, and so
    [Sync.deserialize] undoes [Sync.serialize]; the empty path comes back
    as the absent one. *)
Theorem path_response_roundtrip :
  forall (path : option text) (pre p post : list byte),
    Sync.serialize (Sync.mk path) = Ok p ->
    write_string path = Ok p /\
    Sync.deserialize p 0 = Ok (wire_text path) /\
    Sync.deserialize (pre ++ p ++ post) (len pre) = Ok (wire_text path) /\
    Create.deserialize (pre ++ p ++ post) (len pre) = Ok (wire_text path).
Proof.
  intros path pre p post H. change (write_string path = Ok p) in H.
  pose proof (read_string_write_string _ [] _ [] H) as R0.
  rewrite app_nil_r in R0. cbn [app] in R0. change (len []) with 0 in R0.
  pose proof (read_string_write_string _ pre _ post H) as R1.
  unfold Sync.deserialize, Create.deserialize. rewrite R0, R1.
  repeat split; assumption.
Qed.

Lemma path_response_roundtrip_witness :
  write_string (Some [47; 97]) = Ok [x00; x00; x00; x02; x2f; x61] /\
  Sync.deserialize [x00; x00; x00; x02; x2f; x61] 0
  = Ok (wire_text (Some [47; 97])) /\
  Sync.deserialize ([x07] ++ [x00; x00; x00; x02; x2f; x61] ++ [x08])
    (len [x07])
  = Ok (wire_text (Some [47; 97])) /\
  Create.deserialize ([x07] ++ [x00; x00; x00; x02; x2f; x61] ++ [x08])
    (len [x07])
  = Ok (wire_text (Some [47; 97])).
Proof.
  apply (path_response_roundtrip (Some [47; 97])). vm_compute. reflexivity.
Defined.

(** X12. [SetACL.deserialize] on the packed node-metadata record returns
    the record; [Exists.deserialize] returns it too unless its czxid is
    -1, in which case it returns [None]. *)
Theorem stat_responses_packed :
  forall (c m ct mt v cv av eo dl nc pz : Z) (pre sb post : list byte),
    pack stat_struct [c; m; ct; mt; v; cv; av; eo; dl; nc; pz] = Ok sb ->
    SetACL.deserialize (pre ++ sb ++ post) (len pre)
    = Ok (mkZnodeStat c m ct mt v cv av eo dl nc pz) /\
    Exists.deserialize (pre ++ sb ++ post) (len pre)
    = Ok (if c =? -1 then None
          else Some (mkZnodeStat c m ct mt v cv av eo dl nc pz)).
Proof.
  intros c m ct mt v cv av eo dl nc pz pre sb post H.
  unfold SetACL.deserialize, Exists.deserialize.
  rewrite (unpack_from_pack _ _ _ _ _ H). cbn [bind ZnodeStat_make czxid].
  split; [reflexivity|]. destruct (c =? -1); reflexivity.
Qed.

Lemma stat_responses_packed_witness :
  SetACL.deserialize ([x07] ++ (repeat x00 67 ++ [x05]) ++ [x08]) (len [x07])
  = Ok (mkZnodeStat 0 0 0 0 0 0 0 0 0 0 5) /\
  Exists.deserialize ([x07] ++ (repeat x00 67 ++ [x05]) ++ [x08]) (len [x07])
  = Ok (if 0 =? -1 then None
        else Some (mkZnodeStat 0 0 0 0 0 0 0 0 0 0 5)).
Proof.
  apply (stat_responses_packed 0 0 0 0 0 0 0 0 0 0 5).
  vm_compute. reflexivity.
Defined.

(** ** Lists in responses *)

Lemma read_children_written (names : list (option text)) :
  forall (encs : list (list byte)) (pre post : list byte)
         (acc : list (option text)),
    Forall2 (fun s b => write_string s = Ok b) names encs ->
    read_children (length names) (pre ++ concat encs ++ post) (len pre) acc
    = Ok (acc ++ map wire_text names, len pre + len (concat encs)).
Proof.
  induction names as [|s names IH]; intros encs pre post acc H;
    inversion H as [|s' b names' encs' Hs Hrest]; subst;
    cbn [read_children length map concat].
  - rewrite app_nil_r. change (len []) with 0. do 2 f_equal. lia.
  - rewrite <- app_assoc.
    rewrite (read_string_write_string _ _ _ _ Hs). cbn [bind].
    rewrite <- len_app, (app_assoc pre b), (IH _ _ _ _ Hrest).
    rewrite <- app_assoc, !len_app. cbn [app]. do 2 f_equal. lia.
Qed.

Lemma read_children_length (count : nat) (bytes : list byte) :
  forall offset acc l off',
    read_children count bytes offset acc = Ok (l, off') ->
    length l = (length acc + count)%nat.
Proof.
  induction count as [|n IH]; intros offset acc l off' H;
    cbn [read_children] in H.
  - apply Ok_inj in H. injection H as <- _. lia.
  - destruct (read_string bytes offset) as [[s o]|]; [|discriminate].
    cbn [bind] in H. apply IH in H. rewrite H, length_app. simpl. lia.
Qed.

Lemma read_acls_length (count : nat) (bytes : list byte) :
  forall offset acc l off',
    read_acls count bytes offset acc = Ok (l, off') ->
    length l = (length acc + count)%nat.
Proof.
  induction count as [|n IH]; intros offset acc l off' H;
    cbn [read_acls] in H.
  - apply Ok_inj in H. injection H as <- _. lia.
  - destruct (read_acl bytes offset) as [[a o]|]; [|discriminate].
    cbn [bind] in H. apply IH in H. rewrite H, length_app. simpl. lia.
Qed.

(** X13. [GetChildren.deserialize] on a count followed by that many
    written names returns the names in the order written (an empty name
    comes back as the absent one), at any position of the buffer and
    whatever follows the last name. *)
Theorem GetChildren_deserialize_written :
  forall (names : list (option text)) (encs : list (list byte))
         (pre n post : list byte),
    pack int_struct [len names] = Ok n ->
    Forall2 (fun s b => write_string s = Ok b) names encs ->
    GetChildren.deserialize (pre ++ n ++ concat encs ++ post) (len pre)
    = Ok (map wire_text names).
Proof.
  intros names encs pre n post Hn H. unfold GetChildren.deserialize.
  rewrite (unpack_first_pack _ _ _ _ Hn). cbn [bind].
  pose proof (len_nonneg names).
  destruct (Z.eqb_spec (len names) (-1)); [lia|].
  replace (Z.to_nat (len names)) with (length names)
    by (unfold len; lia).
  rewrite size_int_struct, <- (pack_int_len _ _ Hn), <- len_app, app_assoc.
  rewrite (read_children_written _ _ _ _ _ H). reflexivity.
Qed.

Lemma GetChildren_deserialize_written_witness :
  GetChildren.deserialize
    ([x07] ++ [x00; x00; x00; x02]
     ++ concat [[x00; x00; x00; x01; x61]; [x00; x00; x00; x02; x62; x63]]
     ++ [x08])
    (len [x07])
  = Ok (map wire_text [Some [97]; Some [98; 99]]).
Proof.
  apply (GetChildren_deserialize_written [Some [97]; Some [98; 99]]).
  - vm_compute. reflexivity.
  - repeat constructor.
Defined.

(** X14. [GetChildren.deserialize] returns the empty list for every
    count that is not positive: -1 by the explicit test, 0 and the other
    negative counts because the loop does not run. Nothing after the
    count is read. *)
Theorem GetChildren_deserialize_no_children :
  forall (bytes : list byte) (offset count : Z),
    unpack_first int_struct bytes offset = Ok count -> count <= 0 ->
    GetChildren.deserialize bytes offset = Ok [].
Proof.
  intros bytes offset count H Hc. unfold GetChildren.deserialize.
  rewrite H. cbn [bind]. destruct (count =? -1); [reflexivity|].
  replace (Z.to_nat count) with 0%nat by lia. reflexivity.
Qed.

Lemma GetChildren_deserialize_no_children_witness :
  GetChildren.deserialize [xff; xff; xff; xfe] 0 = Ok [].
Proof.
  apply (GetChildren_deserialize_no_children [xff; xff; xff; xfe] 0 (-2)).
  - vm_compute. reflexivity.
  - lia.
Defined.

(** X15. For a count of 0, or a negative count other than -1,
    [GetACL.deserialize] reads no entry and returns the pair of the empty
    list and the node-metadata record found right after the count; only
    -1 gives the bare empty list. *)
Theorem GetACL_deserialize_no_entries :
  forall (bytes : list byte) (offset count : Z) (stat : ZnodeStat),
    unpack_first int_struct bytes offset = Ok count ->
    count <= 0 -> count <> -1 ->
    SetData.deserialize bytes (offset + 4) = Ok stat ->
    GetACL.deserialize bytes offset = Ok (GetACL.AclsStat [] stat).
Proof.
  intros bytes offset count stat H Hc Hn Hs. unfold GetACL.deserialize.
  rewrite H. cbn [bind].
  destruct (Z.eqb_spec count (-1)); [contradiction|].
  replace (Z.to_nat count) with 0%nat by lia. cbn [read_acls bind].
  change (size int_struct) with 4. unfold SetData.deserialize in Hs.
  destruct (unpack_from stat_struct bytes (offset + 4)) as [vs|];
    [|discriminate].
  cbn [bind] in *. rewrite Hs. reflexivity.
Qed.

Lemma GetACL_deserialize_no_entries_witness :
  GetACL.deserialize ([xff; xff; xff; xfe] ++ repeat x00 67 ++ [x05]) 0
  = Ok (GetACL.AclsStat [] (mkZnodeStat 0 0 0 0 0 0 0 0 0 0 5)).
Proof.
  apply (GetACL_deserialize_no_entries _ 0 (-2)).
  - vm_compute. reflexivity.
  - lia.
  - lia.
  - vm_compute. reflexivity.
Defined.

(** X16. A list decoder that succeeds returns exactly as many elements
    as the count announces: [GetACL.deserialize], when it returns a pair,
    and [GetChildren.deserialize], for a count that is not negative. *)
Theorem list_decoders_honour_count :
  forall (bytes : list byte) (offset count : Z),
    unpack_first int_struct bytes offset = Ok count -> 0 <= count ->
    (forall acls stat,
        GetACL.deserialize bytes offset = Ok (GetACL.AclsStat acls stat) ->
        len acls = count) /\
    (forall acls, GetACL.deserialize bytes offset <> Ok (GetACL.Acls acls)) /\
    (forall children,
        GetChildren.deserialize bytes offset = Ok children ->
        len children = count).
Proof.
  intros bytes offset count H Hc.
  unfold GetACL.deserialize, GetChildren.deserialize. rewrite H. cbn [bind].
  destruct (Z.eqb_spec count (-1)); [lia|].
  split; [|split].
  - intros acls stat.
    destruct (read_acls (Z.to_nat count) bytes (offset + size int_struct) [])
      as [[l o]|] eqn:E; [|discriminate].
    cbn [bind].
    destruct (unpack_from stat_struct bytes o); [|discriminate]. cbn [bind].
    destruct (ZnodeStat_make a); [|discriminate]. cbn [bind].
    intros E'. apply Ok_inj in E'. injection E' as <- _.
    apply read_acls_length in E. unfold len. rewrite E. simpl. lia.
  - intros acls.
    destruct (read_acls (Z.to_nat count) bytes (offset + size int_struct) [])
      as [[l o]|]; [|discriminate].
    cbn [bind].
    destruct (unpack_from stat_struct bytes o); [|discriminate]. cbn [bind].
    destruct (ZnodeStat_make a); discriminate.
  - intros children.
    destruct (read_children (Z.to_nat count) bytes
                (offset + size int_struct) [])
      as [[l o]|] eqn:E; [|discriminate].
    cbn [bind]. intros E'. apply Ok_inj in E'. subst l.
    apply read_children_length in E. unfold len. rewrite E. simpl. lia.
Qed.

Lemma list_decoders_honour_count_witness :
  len [mkACL 0 (mkId None None); mkACL 0 (mkId None None)] = 2 /\
  len [Some [97]; @None text] = 2.
Proof.
  destruct (list_decoders_honour_count
              ([x00; x00; x00; x02;
                x00; x00; x00; x00; xff; xff; xff; xff; xff; xff; xff; xff;
                x00; x00; x00; x00; xff; xff; xff; xff; xff; xff; xff; xff]
               ++ repeat x00 68) 0 2) as (A & _ & _).
  { vm_compute. reflexivity. }
  { lia. }
  destruct (list_decoders_honour_count
              [x00; x00; x00; x02; x00; x00; x00; x01; x61;
               xff; xff; xff; xff] 0 2) as (_ & _ & C).
  { vm_compute. reflexivity. }
  { lia. }
  split.
  - apply (A _ (mkZnodeStat 0 0 0 0 0 0 0 0 0 0 0)). vm_compute. reflexivity.
  - apply C. vm_compute. reflexivity.
Defined.

(** ** Requests can be read back field by field *)

(** Brings the buffer of the goal into the shape [pre ++ mid ++ post]. *)
Ltac reshape bs shape :=
  replace bs with shape by (rewrite <- ?app_assoc, ?app_nil_r; reflexivity).

(** X17. What [Delete.serialize] returns is the written path followed by
    the version: reading a string and then an integer gives the path
    (absent when empty) and the version back and ends at the last byte;
    the version was within the 32-bit signed range. *)
Theorem Delete_serialize_decodes :
  forall (d : Delete.t) (bs : list byte),
    Delete.serialize d = Ok bs ->
    exists o1,
      read_string bs 0 = Ok (wire_text (Delete.path d), o1) /\
      unpack_first int_struct bs o1 = Ok (Delete.version d) /\
      o1 + 4 = len bs /\
      - 2 ^ 31 <= Delete.version d < 2 ^ 31.
Proof.
  intros d bs. unfold Delete.serialize.
  destruct (write_string (Delete.path d)) as [p|] eqn:Ep; [|discriminate].
  destruct (pack int_struct [Delete.version d]) as [v|] eqn:Ev;
    [|discriminate].
  cbn [bind app]. intros H. apply Ok_inj in H. subst bs.
  exists (len p). repeat split.
  - pose proof (read_string_write_string _ [] _ v Ep) as R.
    cbn [app] in R. exact R.
  - pose proof (unpack_first_pack _ p _ [] Ev) as U.
    rewrite app_nil_r in U. exact U.
  - rewrite len_app, (pack_int_len _ _ Ev). reflexivity.
  - destruct (Z_le_dec (- 2 ^ 31) (Delete.version d)); [assumption|].
    rewrite pack_int_overflow in Ev by lia. discriminate.
  - destruct (Z_lt_dec (Delete.version d) (2 ^ 31)); [assumption|].
    rewrite pack_int_overflow in Ev by lia. discriminate.
Qed.

Lemma Delete_serialize_decodes_witness :
  exists o1,
    read_string [x00; x00; x00; x02; x2f; x61; xff; xff; xff; xff] 0
    = Ok (wire_text (Delete.path (Delete.mk (Some [47; 97]) (-1))), o1) /\
    unpack_first int_struct
      [x00; x00; x00; x02; x2f; x61; xff; xff; xff; xff] o1
    = Ok (Delete.version (Delete.mk (Some [47; 97]) (-1))) /\
    o1 + 4 = len [x00; x00; x00; x02; x2f; x61; xff; xff; xff; xff] /\
    - 2 ^ 31 <= Delete.version (Delete.mk (Some [47; 97]) (-1)) < 2 ^ 31.
Proof.
  apply (Delete_serialize_decodes (Delete.mk (Some [47; 97]) (-1))).
  vm_compute. reflexivity.
Defined.

(** X18. What [SetData.serialize] returns is the written path, the
    written data and the version: reading a string, a buffer and an
    integer gives the three fields back (an empty path as absent, absent
    data as empty) and ends at the last byte. *)
Theorem SetData_serialize_decodes :
  forall (r : SetData.t) (bs : list byte),
    SetData.serialize r = Ok bs ->
    exists o1 o2,
      read_string bs 0 = Ok (wire_text (SetData.path r), o1) /\
      read_buffer bs o1 = Ok (wire_buffer (SetData.data r), o2) /\
      unpack_first int_struct bs o2 = Ok (SetData.version r) /\
      o2 + 4 = len bs.
Proof.
  intros r bs. unfold SetData.serialize.
  destruct (write_string (SetData.path r)) as [p|] eqn:Ep; [|discriminate].
  destruct (write_buffer (SetData.data r)) as [d|] eqn:Ed; [|discriminate].
  destruct (pack int_struct [SetData.version r]) as [v|] eqn:Ev;
    [|discriminate].
  cbn [bind app]. intros H. apply Ok_inj in H. subst bs.
  exists (len p), (len p + len d). repeat split.
  - reshape ((p ++ d) ++ v) ([] ++ p ++ (d ++ v)).
    apply (read_string_write_string _ [] _ _ Ep).
  - reshape ((p ++ d) ++ v) (p ++ d ++ v).
    apply (read_buffer_write_buffer _ _ _ _ Ed).
  - reshape ((p ++ d) ++ v) ((p ++ d) ++ v ++ []).
    rewrite <- len_app. apply (unpack_first_pack _ _ _ _ Ev).
  - rewrite !len_app, (pack_int_len _ _ Ev). reflexivity.
Qed.

Lemma SetData_serialize_decodes_witness :
  exists o1 o2,
    read_string
      [x00; x00; x00; x01; x2f; x00; x00; x00; x01; x68;
       x00; x00; x00; x03] 0
    = Ok (wire_text (SetData.path (SetData.mk (Some [47]) (Some [x68]) 3)),
          o1) /\
    read_buffer
      [x00; x00; x00; x01; x2f; x00; x00; x00; x01; x68;
       x00; x00; x00; x03] o1
    = Ok (wire_buffer (SetData.data (SetData.mk (Some [47]) (Some [x68]) 3)),
          o2) /\
    unpack_first int_struct
      [x00; x00; x00; x01; x2f; x00; x00; x00; x01; x68;
       x00; x00; x00; x03] o2
    = Ok (SetData.version (SetData.mk (Some [47]) (Some [x68]) 3)) /\
    o2 + 4
    = len [x00; x00; x00; x01; x2f; x00; x00; x00; x01; x68;
           x00; x00; x00; x03].
Proof.
  apply (SetData_serialize_decodes (SetData.mk (Some [47]) (Some [x68]) 3)).
  vm_compute. reflexivity.
Defined.

(** X19. What [Auth.serialize] returns is the auth type, the written
    scheme and the written credential: reading an integer, a string and
    a buffer gives the three fields back and ends at the last byte. *)
Theorem Auth_serialize_decodes :
  forall (r : Auth.t) (bs : list byte),
    Auth.serialize r = Ok bs ->
    exists o1,
      unpack_first int_struct bs 0 = Ok (Auth.auth_type r) /\
      read_string bs 4 = Ok (wire_text (Auth.scheme r), o1) /\
      read_buffer bs o1 = Ok (wire_buffer (Auth.auth r), len bs).
Proof.
  intros r bs. unfold Auth.serialize.
  destruct (pack int_struct [Auth.auth_type r]) as [a|] eqn:Ea;
    [|discriminate].
  destruct (write_string (Auth.scheme r)) as [s|] eqn:Es; [|discriminate].
  destruct (write_buffer (Auth.auth r)) as [c|] eqn:Ec; [|discriminate].
  cbn [bind]. intros H. apply Ok_inj in H. subst bs.
  pose proof (pack_int_len _ _ Ea) as La.
  exists (len a + len s). repeat split.
  - reshape ((a ++ s) ++ c) ([] ++ a ++ (s ++ c)).
    apply (unpack_first_pack _ [] _ _ Ea).
  - reshape ((a ++ s) ++ c) (a ++ s ++ c). rewrite <- La.
    apply (read_string_write_string _ _ _ _ Es).
  - reshape ((a ++ s) ++ c) ((a ++ s) ++ c ++ []).
    rewrite <- len_app, (read_buffer_write_buffer _ _ _ _ Ec).
    rewrite app_nil_r, !len_app. reflexivity.
Qed.

Lemma Auth_serialize_decodes_witness :
  exists o1,
    unpack_first int_struct
      [x00; x00; x00; x00; x00; x00; x00; x01; x64;
       x00; x00; x00; x02; x75; x3a] 0
    = Ok (Auth.auth_type (Auth.mk 0 (Some [100]) (Some [x75; x3a]))) /\
    read_string
      [x00; x00; x00; x00; x00; x00; x00; x01; x64;
       x00; x00; x00; x02; x75; x3a] 4
    = Ok (wire_text (Auth.scheme (Auth.mk 0 (Some [100]) (Some [x75; x3a]))),
          o1) /\
    read_buffer
      [x00; x00; x00; x00; x00; x00; x00; x01; x64;
       x00; x00; x00; x02; x75; x3a] o1
    = Ok (wire_buffer (Auth.auth (Auth.mk 0 (Some [100]) (Some [x75; x3a]))),
          len [x00; x00; x00; x00; x00; x00; x00; x01; x64;
               x00; x00; x00; x02; x75; x3a]).
Proof.
  apply (Auth_serialize_decodes (Auth.mk 0 (Some [100]) (Some [x75; x3a]))).
  vm_compute. reflexivity.
Defined.

(** X20. What [Create.serialize] returns can be read back in full: a
    string gives the path, a buffer the data, an integer the number of
    ACL entries, the ACL loop the entries in order, and a last integer
    the flags, which ends at the last byte. Empty texts come back as
    absent, absent data as empty. *)
Theorem Create_serialize_decodes :
  forall (c : Create.t) (bs : list byte),
    Create.serialize c = Ok bs ->
    exists o1 o2 o3,
      read_string bs 0 = Ok (wire_text (Create.path c), o1) /\
      read_buffer bs o1 = Ok (wire_buffer (Create.data c), o2) /\
      unpack_first int_struct bs o2 = Ok (len (Create.acl c)) /\
      read_acls (length (Create.acl c)) bs (o2 + 4) []
      = Ok (map wire_acl (Create.acl c), o3) /\
      unpack_first int_struct bs o3 = Ok (Create.flags c) /\
      o3 + 4 = len bs.
Proof.
  intros c bs H.
  destruct (Create_serialize_layout _ _ H)
    as (p & d & n & e & f & Hp & Hd & Hn & He & Hf & ->).
  pose proof (pack_int_len _ _ Hn) as Ln.
  destruct (read_acls_extend_acls _ _ _ He) as (e' & E & Hread).
  cbn [app] in E. subst e'.
  exists (len p), (len p + len d), (len p + len d + 4 + len e).
  repeat split.
  - apply (read_string_write_string _ [] _ _ Hp).
  - apply (read_buffer_write_buffer _ _ _ _ Hd).
  - reshape (p ++ d ++ (n ++ e) ++ f) ((p ++ d) ++ n ++ (e ++ f)).
    rewrite <- len_app. apply (unpack_first_pack _ _ _ _ Hn).
  - reshape (p ++ d ++ (n ++ e) ++ f) (((p ++ d) ++ n) ++ e ++ f).
    replace (len p + len d + 4) with (len ((p ++ d) ++ n))
      by (rewrite !len_app; lia).
    rewrite Hread. reflexivity.
  - reshape (p ++ d ++ (n ++ e) ++ f) ((((p ++ d) ++ n) ++ e) ++ f ++ []).
    replace (len p + len d + 4 + len e) with (len (((p ++ d) ++ n) ++ e))
      by (rewrite !len_app; lia).
    apply (unpack_first_pack _ _ _ _ Hf).
  - rewrite !len_app, (pack_int_len _ _ Hf). lia.
Qed.

Lemma Create_serialize_decodes_witness :
  exists o1 o2 o3,
    read_string example_create_bytes 0
    = Ok (wire_text (Create.path example_create), o1) /\
    read_buffer example_create_bytes o1
    = Ok (wire_buffer (Create.data example_create), o2) /\
    unpack_first int_struct example_create_bytes o2
    = Ok (len (Create.acl example_create)) /\
    read_acls (length (Create.acl example_create)) example_create_bytes
      (o2 + 4) []
    = Ok (map wire_acl (Create.acl example_create), o3) /\
    unpack_first int_struct example_create_bytes o3
    = Ok (Create.flags example_create) /\
    o3 + 4 = len example_create_bytes.
Proof.
  apply (Create_serialize_decodes example_create). vm_compute. reflexivity.
Defined.

(** X21. What [Connect.serialize] returns can be read back: the four
    packed fields at offset 0, the password as a buffer at offset 24
    (absent as empty), and then exactly one byte, 1 when the read-only
    field is true and 0 otherwise. *)
Theorem Connect_serialize_decodes :
  forall (c : Connect.t) (bs : list byte),
    Connect.serialize c = Ok bs ->
    exists o,
      unpack_from int_long_int_long_struct bs 0
      = Ok [Connect.protocol_version c; Connect.last_zxid_seen c;
            Connect.time_out c; Connect.session_id c] /\
      read_buffer bs 24 = Ok (wire_buffer (Connect.passwd c), o) /\
      skipn (Z.to_nat o) bs
      = [if truthy (Connect.read_only c) then x01 else x00] /\
      o + 1 = len bs.
Proof.
  intros c bs. unfold Connect.serialize.
  destruct (pack int_long_int_long_struct _) as [h|] eqn:Eh; [|discriminate].
  destruct (write_buffer (Connect.passwd c)) as [p|] eqn:Ep; [|discriminate].
  cbn [bind app]. intros H. apply Ok_inj in H. subst bs.
  set (flag := if truthy (Connect.read_only c) then x01 else x00).
  assert (Lh : len h = 24) by exact (pack_length _ _ _ Eh).
  exists (len h + len p). repeat split.
  - reshape ((h ++ p) ++ [flag]) ([] ++ h ++ (p ++ [flag])).
    apply (unpack_from_pack _ _ [] _ _ Eh).
  - reshape ((h ++ p) ++ [flag]) (h ++ p ++ [flag]). rewrite <- Lh.
    apply (read_buffer_write_buffer _ _ _ _ Ep).
  - rewrite <- len_app. apply skipn_len_pre.
  - rewrite !len_app. reflexivity.
Qed.

Lemma Connect_serialize_decodes_witness :
  exists o,
    unpack_from int_long_int_long_struct
      (repeat x00 3 ++ [x01] ++ repeat x00 7 ++ [x02; x00; x00; x75; x30]
       ++ repeat x00 7 ++ [x03; x00; x00; x00; x01; x70; x01]) 0
    = Ok [Connect.protocol_version
            (Connect.mk 1 2 30000 3 (Some [x70]) (PyBool true));
          Connect.last_zxid_seen
            (Connect.mk 1 2 30000 3 (Some [x70]) (PyBool true));
          Connect.time_out
            (Connect.mk 1 2 30000 3 (Some [x70]) (PyBool true));
          Connect.session_id
            (Connect.mk 1 2 30000 3 (Some [x70]) (PyBool true))] /\
    read_buffer
      (repeat x00 3 ++ [x01] ++ repeat x00 7 ++ [x02; x00; x00; x75; x30]
       ++ repeat x00 7 ++ [x03; x00; x00; x00; x01; x70; x01]) 24
    = Ok (wire_buffer
            (Connect.passwd
               (Connect.mk 1 2 30000 3 (Some [x70]) (PyBool true))), o) /\
    skipn (Z.to_nat o)
      (repeat x00 3 ++ [x01] ++ repeat x00 7 ++ [x02; x00; x00; x75; x30]
       ++ repeat x00 7 ++ [x03; x00; x00; x00; x01; x70; x01])
    = [if truthy
            (Connect.read_only
               (Connect.mk 1 2 30000 3 (Some [x70]) (PyBool true)))
       then x01 else x00] /\
    o + 1
    = len (repeat x00 3 ++ [x01] ++ repeat x00 7
           ++ [x02; x00; x00; x75; x30]
           ++ repeat x00 7 ++ [x03; x00; x00; x00; x01; x70; x01]).
Proof.
  apply (Connect_serialize_decodes
           (Connect.mk 1 2 30000 3 (Some [x70]) (PyBool true))).
  vm_compute. reflexivity.
Defined.

(** X22. [Exists.serialize], [GetData.serialize] and
    [GetChildren.serialize] return the same bytes for the same path and
    watcher: the written path, read back by [read_string], followed by
    one byte, 1 when the watcher is true and 0 otherwise. *)
Theorem watch_requests_agree :
  forall (path : option text) (children watcher : pyobj) (bs : list byte),
    Exists.serialize (Exists.mk path watcher) = Ok bs ->
    GetData.serialize (GetData.mk path watcher) = Ok bs /\
    GetChildren.serialize (GetChildren.mk path children watcher) = Ok bs /\
    read_string bs 0 = Ok (wire_text path, len bs - 1) /\
    skipn (Z.to_nat (len bs - 1)) bs
    = [if truthy watcher then x01 else x00].
Proof.
  intros path children watcher bs H.
  split; [exact H|]. split; [exact H|].
  unfold Exists.serialize in H. cbn [Exists.path Exists.watcher] in H.
  destruct (write_string path) as [p|] eqn:Ep; [|discriminate].
  cbn [bind app] in H. apply Ok_inj in H. subst bs.
  rewrite len_app. change (len [_]) with 1.
  replace (len p + 1 - 1) with (len p) by lia. split.
  - apply (read_string_write_string _ [] _ _ Ep).
  - apply skipn_len_pre.
Qed.

Lemma watch_requests_agree_witness :
  GetData.serialize (GetData.mk (Some [47]) (PyCallable 0))
  = Ok [x00; x00; x00; x01; x2f; x01] /\
  GetChildren.serialize (GetChildren.mk (Some [47]) PyNone (PyCallable 0))
  = Ok [x00; x00; x00; x01; x2f; x01] /\
  read_string [x00; x00; x00; x01; x2f; x01] 0
  = Ok (wire_text (Some [47]), len [x00; x00; x00; x01; x2f; x01] - 1) /\
  skipn (Z.to_nat (len [x00; x00; x00; x01; x2f; x01] - 1))
    [x00; x00; x00; x01; x2f; x01]
  = [if truthy (PyCallable 0) then x01 else x00].
Proof.
  apply (watch_requests_agree (Some [47]) PyNone (PyCallable 0)).
  vm_compute. reflexivity.
Defined.

(** X23. An integer field outside the 32-bit signed range makes the
    encoder raise [struct.error]: the auth type of [Auth.serialize]
    at once, the version of [Delete.serialize] and [SetData.serialize]
    once the fields before it are written. *)
Theorem int_field_out_of_range :
  forall (v : Z) (path scheme : option text) (data : option (list byte))
         (p d : list byte),
    ~ (- 2 ^ 31 <= v < 2 ^ 31) ->
    write_string path = Ok p -> write_buffer data = Ok d ->
    Auth.serialize (Auth.mk v scheme data) = Raise StructError /\
    Delete.serialize (Delete.mk path v) = Raise StructError /\
    SetData.serialize (SetData.mk path data v) = Raise StructError.
Proof.
  intros v path scheme data p d Hv Hp Hd.
  unfold Auth.serialize, Delete.serialize, SetData.serialize.
  cbn [Auth.auth_type Delete.path Delete.version SetData.path SetData.data
         SetData.version].
  rewrite Hp, Hd, (pack_int_overflow _ Hv). repeat split.
Qed.

Lemma int_field_out_of_range_witness :
  Auth.serialize (Auth.mk 2147483648 None (Some [x68]))
  = Raise StructError /\
  Delete.serialize (Delete.mk (Some [47]) 2147483648) = Raise StructError /\
  SetData.serialize (SetData.mk (Some [47]) (Some [x68]) 2147483648)
  = Raise StructError.
Proof.
  apply (int_field_out_of_range 2147483648 (Some [47]) None (Some [x68])
           [x00; x00; x00; x01; x2f] [x00; x00; x00; x01; x68]).
  - lia.
  - vm_compute. reflexivity.
  - vm_compute. reflexivity.
Defined.
